(** * A shallow embedding of [logger.py] (class [Logger])

    The logger keeps, per epoch, a dictionary from metric key to the list of
    floats logged under that key, writes one JSON file per key and epoch,
    reloads them at construction and redraws one chart per key.

    The embedding follows the source method by method.  Python state
    ([self], the files of the log directory, standard output) is threaded
    explicitly; a Python exception is an outcome of its own, and the state
    reached when it is raised is kept, because the source mutates [self]
    before it raises.

    What is taken for granted, and what is not:
    - a float is a binary64 number, a Python [int] an integer; [assert]
      statements are executed;
    - the directory is a finite map from paths to file contents, one path
      per file, spelled as [os.path.join(log_dir_path, name)] spells it.
      On a real directory different strings can name one file (['./k'] and
      ['k']), and a name with a separator needs a directory of its own.
      What is stated about the files of the keys after they were written
      is therefore stated for keys that are plain file names
      ([keys_plain]): their files are entries of [log_dir_path] itself,
      and entries with different names are different files (a file system
      that tells names apart byte by byte, without links);
    - a JSON file of numbers is represented by the list [json.load] reads
      from it.  Which list that is for a file [json.dump] wrote is left to
      the [json] module: the methods that save take the function [reread]
      from a float to the float read back from its numeral, and exactness
      of a round trip is stated under the hypothesis that [reread] returns
      the floats concerned;
    - [plt.yscale] raises [ValueError] for a name that is no scale of
      [matplotlib]; a chart is drawn for the scales that every version
      takes without arguments and for a key that is a plain title (no
      dollar sign, which may start a formula; not full stops only, which
      make a file name without extension).  Other scales and keys are
      not followed.  That all charts of a store are of this kind is the
      hypothesis [charts_drawable];
    - [meta_info_dict] is an association list in insertion order; that no
      key occurs twice is the hypothesis [keys_distinct] where it matters;
    - the [while True] loop of [load] runs on fuel, and every statement
      that it returns names a sufficient amount. *)

From Stdlib Require Import ZArith String Ascii List PrimFloat Uint63 Lia.
From Stdlib Require Import Decimal DecimalString DecimalPos DecimalZ.
From stdpp Require Import gmap strings list.

Set Warnings "-inexact-float".

Local Open Scope string_scope.
Local Open Scope list_scope.
Local Open Scope Z_scope.

(** ** Python values and containers *)

(** What a caller may hand to [log_info] as a value: a [float], or an object
    of another type.  [assert type(v) is float] separates the two. *)
Inductive pyval :=
| PyFloat (f : float)
| PyInt (z : Z)
| PyBool (b : bool)
| PyStr (s : string)
| PyNone.

(** The exceptions the methods of [Logger] can raise. *)
Inductive exn :=
| KeyError
| AssertionError
| IndexError
| FileNotFoundError
| JSONDecodeError
| ZeroDivisionError
| NameError
| AttributeError
| ValueError.

Global Instance exn_eq_dec : EqDecision exn.
Proof. solve_decision. Defined.

(** A Python [dict] with string keys: insertion ordered, one entry per key. *)
Definition dict (V : Type) : Type := list (string * V).

Fixpoint dict_get {V} (k : string) (d : dict V) : option V :=
  match d with
  | [] => None
  | (k', v) :: r => if String.eqb k' k then Some v else dict_get k r
  end.

(** [d[k] = v]: an existing key keeps its position, a new key goes last. *)
Fixpoint dict_set {V} (k : string) (v : V) (d : dict V) : dict V :=
  match d with
  | [] => [(k, v)]
  | (k', v') :: r =>
      if String.eqb k' k then (k', v) :: r else (k', v') :: dict_set k v r
  end.

Definition dict_keys {V} (d : dict V) : list string := map fst d.

(** [{k: [] for k in keys}] *)
Definition dict_fromkeys {V} (keys : list string) (v : V) : dict V :=
  fold_left (fun d k => dict_set k v d) keys [].

(** [l[i]] for a Python list and a Python int: negative indices count from
    the end; [None] stands for [IndexError]. *)
Definition list_index {A} (l : list A) (i : Z) : option A :=
  let n := Z.of_nat (length l) in
  if 0 <=? i then l !! Z.to_nat i
  else if - n <=? i then l !! Z.to_nat (n + i)
  else None.

(** [l[i] = x] on the slot [list_index] reads. *)
Definition list_assign {A} (l : list A) (i : Z) (x : A) : list A :=
  let n := Z.of_nat (length l) in
  if 0 <=? i then <[Z.to_nat i := x]> l
  else if - n <=? i then <[Z.to_nat (n + i) := x]> l
  else l.

(** The characters of a string. *)
Fixpoint chars (s : string) : list ascii :=
  match s with
  | EmptyString => []
  | String c r => c :: chars r
  end.

(** ** File names *)

(** [f'{epoch:02d}']: the decimal numeral, sign first, padded with zeros to
    two characters.  A negative number already has two characters. *)
Definition format_02d (epoch : Z) : string :=
  let s := NilZero.string_of_int (Z.to_int epoch) in
  if (String.length s <? 2)%nat then "0" +:+ s else s.

Definition startswith_sep (s : string) : bool :=
  match s with
  | String c _ => Ascii.eqb c "/"%char
  | EmptyString => false
  end.

Fixpoint endswith_sep (s : string) : bool :=
  match s with
  | EmptyString => false
  | String c EmptyString => Ascii.eqb c "/"%char
  | String _ r => endswith_sep r
  end.

(** [os.path.join(a, b)] of [posixpath]. *)
Definition os_path_join (a b : string) : string :=
  if startswith_sep b then b
  else if (String.eqb a EmptyString || endswith_sep a)%bool then a +:+ b
  else a +:+ "/" +:+ b.

(** [os.path.join(self.log_dir_path, f'{k}_{epoch:02d}.json')] *)
Definition epoch_path (dir k : string) (epoch : Z) : string :=
  os_path_join dir (k +:+ "_" +:+ format_02d epoch +:+ ".json").

(** [os.path.join(self.log_dir_path, f'{k}.pdf')] *)
Definition chart_path (dir k : string) : string :=
  os_path_join dir (k +:+ ".pdf").

(** ** The logger and its surroundings *)

(** One entry of [meta_info_dict]: the two options the class reads. *)
Record meta_info := MetaInfo {
  alias : option string;
  yscale : option string
}.

(** [self.info[n]] : [dict[str, list[float]]], as the class documents it. *)
Definition epoch_info : Type := dict (list float).

(** The attributes [__init__] assigns. *)
Record Logger := MkLogger {
  meta_info_dict : dict meta_info;
  log_dir_path : string;
  info : list epoch_info;
  periodic_plot : bool;
  period : Z;
  plot_counter : Z;
  is_loading : bool
}.

(** A file of the log directory, by what it holds:
    - [JsonFloats v]: the text of a JSON array of numbers that [json.load]
      reads as the list of floats [v];
    - [JsonObject o]: the text of a JSON object with float members, as
      [json.dump] writes a summary; [json.load] reads it as a [dict];
    - [Chart title scale series]: a figure written by [plt.savefig];
    - [Unparsable]: any text [json.load] rejects, the empty file that
      [open(path, 'w')] leaves behind included.
    JSON documents of further shapes are not represented. *)
Inductive file :=
| JsonFloats (v : list float)
| JsonObject (o : dict float)
| Chart (title scale : string) (series : list float)
| Unparsable.

Record World := MkWorld {
  self : Logger;
  files : gmap string file;
  stdout : list string;
  plot_calls : nat
}.

Definition with_info (f : list epoch_info -> list epoch_info) (w : World) : World :=
  let s := self w in
  MkWorld
    (MkLogger (meta_info_dict s) (log_dir_path s) (f (info s))
              (periodic_plot s) (period s) (plot_counter s) (is_loading s))
    (files w) (stdout w) (plot_calls w).

Definition with_plot_counter (c : Z) (w : World) : World :=
  let s := self w in
  MkWorld
    (MkLogger (meta_info_dict s) (log_dir_path s) (info s)
              (periodic_plot s) (period s) c (is_loading s))
    (files w) (stdout w) (plot_calls w).

Definition with_is_loading (b : bool) (w : World) : World :=
  let s := self w in
  MkWorld
    (MkLogger (meta_info_dict s) (log_dir_path s) (info s)
              (periodic_plot s) (period s) (plot_counter s) b)
    (files w) (stdout w) (plot_calls w).

Definition with_files (f : gmap string file -> gmap string file) (w : World) : World :=
  MkWorld (self w) (f (files w)) (stdout w) (plot_calls w).

Definition with_stdout (f : list string -> list string) (w : World) : World :=
  MkWorld (self w) (files w) (f (stdout w)) (plot_calls w).

Definition with_plot_call (w : World) : World :=
  MkWorld (self w) (files w) (stdout w) (S (plot_calls w)).

(** ** Computations that may raise *)

(** [Return a]: the call returns [a].  [Raise e]: it raises [e].
    [Unmodelled]: the run meets a value the embedding has no type for (a
    JSON document that is not a list of floats read into [self.info], a
    module object read as a variable) or a call into [matplotlib] whose
    result the embedding does not fix; it is followed no further, and what
    is stated of calls that return or raise is stated of runs that do not
    meet it. *)
Inductive outcome (A : Type) :=
| Return (a : A)
| Raise (e : exn)
| Unmodelled.
Arguments Return {A} a.
Arguments Raise {A} e.
Arguments Unmodelled {A}.

Definition M (A : Type) : Type := World -> outcome A * World.

Definition ret {A} (a : A) : M A := fun w => (Return a, w).

Definition bind {A B} (m : M A) (k : A -> M B) : M B :=
  fun w =>
    match m w with
    | (Return a, w') => k a w'
    | (Raise e, w') => (Raise e, w')
    | (Unmodelled, w') => (Unmodelled, w')
    end.

Definition raise {A} (e : exn) : M A := fun w => (Raise e, w).

Definition gets {A} (f : World -> A) : M A := fun w => (Return (f w), w).

Definition modify (f : World -> World) : M unit := fun w => (Return tt, f w).

Definition unmodelled {A} : M A := fun w => (Unmodelled, w).

(** [try: body  except e: handler] *)
Definition try_except {A} (e : exn) (body handler : M A) : M A :=
  fun w =>
    match body w with
    | (Raise e', w') => if decide (e' = e) then handler w' else (Raise e', w')
    | r => r
    end.

(** [d[k]] and [l[i]] as statements: the lookup or the exception. *)
Definition subscript {V} (d : dict V) (k : string) : M V :=
  match dict_get k d with
  | Some v => ret v
  | None => raise KeyError
  end.

Definition item {A} (l : list A) (i : Z) : M A :=
  match list_index l i with
  | Some x => ret x
  | None => raise IndexError
  end.

Declare Scope py_scope.
Delimit Scope py_scope with py.
Notation "x <- c1 ;; c2" := (bind c1 (fun x => c2))
  (at level 100, c1 at next level, right associativity) : py_scope.
Notation "c1 ;;; c2" := (bind c1 (fun _ => c2))
  (at level 100, right associativity) : py_scope.
Local Open Scope py_scope.

Ltac unfold_monad := unfold subscript, item, bind, gets, modify, ret, raise in *.

(** [for x in l: body x] *)
Fixpoint for_each {A} (l : list A) (body : A -> M unit) : M unit :=
  match l with
  | [] => ret tt
  | x :: r => body x ;;; for_each r body
  end.

(** ** The methods of [Logger] *)

Definition keys_of (w : World) : list string := dict_keys (meta_info_dict (self w)).

(** [info[k].extend(v)] for each item of one epoch, in [plot]. *)
Fixpoint extend_items (items : epoch_info) (acc : dict (list float)) : M (dict (list float)) :=
  match items with
  | [] => ret acc
  | (k, v) :: r =>
      old <- subscript acc k ;;
      extend_items r (dict_set k (old ++ v) acc)
  end.

Fixpoint gather (epochs : list epoch_info) (acc : dict (list float)) : M (dict (list float)) :=
  match epochs with
  | [] => ret acc
  | e :: r => acc' <- extend_items e acc ;; gather r acc'
  end.

(** *** The calls into [matplotlib] *)

(** The scale names [plt.yscale] takes without further arguments in every
    version of [matplotlib]. *)
Definition drawn_scales : list string := ["linear"; "log"; "symlog"; "logit"].

(** The other names of its registry: ["asinh"] is known to recent versions
    only, ["function"] and ["functionlog"] need arguments that [plot] does
    not pass. *)
Definition other_scales : list string := ["asinh"; "function"; "functionlog"].

Definition lower_ascii (c : ascii) : ascii :=
  let n := nat_of_ascii c in
  if ((65 <=? n) && (n <=? 90))%nat then ascii_of_nat (n + 32) else c.

(** [s.lower()] on the letters A to Z. *)
Fixpoint lower (s : string) : string :=
  match s with
  | EmptyString => EmptyString
  | String c r => String (lower_ascii c) (lower r)
  end.

(** [plt.yscale(scale)]: [ValueError] for a string that is no scale name,
    whatever its case (older versions lower the name before they look it
    up); the names of [other_scales] and differently cased names depend on
    the version and are not followed. *)
Definition plt_yscale (scale : string) : M unit :=
  if bool_decide (scale ∈ drawn_scales) then ret tt
  else if bool_decide (lower scale ∈ drawn_scales ++ other_scales) then unmodelled
  else raise ValueError.

Definition has_dollar (s : string) : bool :=
  existsb (Ascii.eqb "$"%char) (chars s).

(** The empty string and the strings of full stops. *)
Definition dots_only (s : string) : bool :=
  forallb (Ascii.eqb "."%char) (chars s).

(** A key that gives a title and a file name [plt.savefig] handles as the
    source intends: a title with dollar signs may be set as a formula when
    the figure is drawn; for a key of full stops only, [<k>.pdf] is a name
    without extension to [os.path.splitext], and [plt.savefig] writes a
    file of another name and format. *)
Definition plain_title (k : string) : bool :=
  negb (has_dollar k) && negb (dots_only k).

(** [plt.plot(v); plt.savefig(path); plt.close()] on the figure titled by
    [plt.title(k)], where [path] is the chart path of the key [k].  Keys
    that are no plain titles are not followed. *)
Definition plt_savefig (path k scale : string) (v : list float) : M unit :=
  if plain_title k then modify (with_files (insert path (Chart k scale v)))
  else unmodelled.

(** The body of the second loop of [plot]: one chart, saved under the
    key's name. *)
Definition render (kv : string * list float) : M unit :=
  let (k, v) := kv in
  s <- gets self ;;
  m <- subscript (meta_info_dict s) k ;;
  let scale := match yscale m with Some y => y | None => "log" end in
  plt_yscale scale ;;;
  plt_savefig (chart_path (log_dir_path s) k) k scale v.

(** [plot]: every call is counted in [plot_calls]. *)
Definition plot : M unit :=
  modify with_plot_call ;;;
  s <- gets self ;;
  series <- gather (info s) (dict_fromkeys (dict_keys (meta_info_dict s)) []) ;;
  for_each series render.

Definition new_epoch : M unit :=
  s <- gets self ;;
  (if (negb (is_loading s) && periodic_plot s)%bool then plot else ret tt) ;;;
  s <- gets self ;;
  let info_dict := dict_fromkeys (dict_keys (meta_info_dict s)) [] in
  modify (with_info (fun l => l ++ [info_dict])).

(** The body of the loop of [log_info]. *)
Definition log_key (info_to_log : dict pyval) (k : string) : M unit :=
  v <- subscript info_to_log k ;;
  match v with
  | PyFloat f =>
      s <- gets self ;;
      e <- item (info s) (-1) ;;
      old <- subscript e k ;;
      modify (with_info (fun l => list_assign l (-1) (dict_set k (old ++ [f]) e)))
  | _ => raise AssertionError
  end.

Definition log_info (info_to_log : dict pyval) : M unit :=
  keys <- gets keys_of ;;
  for_each keys (log_key info_to_log) ;;;
  s <- gets self ;;
  if periodic_plot s then
    if period s =? 0 then raise ZeroDivisionError
    else
      let c := (plot_counter s + 1) mod period s in
      modify (with_plot_counter c) ;;;
      if c =? 0 then plot else ret tt
  else ret tt.

(** The body of the loop of [save_epoch]: [open(path, 'w')] empties the
    file before [self.info[epoch][k]] is evaluated.  [json.dump] writes one
    numeral per float; [reread x] is the float that [json.load] reads from
    the numeral written for [x]. *)
Definition save_key (reread : float -> float) (epoch : Z) (k : string) : M unit :=
  s <- gets self ;;
  let path := epoch_path (log_dir_path s) k epoch in
  modify (with_files (insert path Unparsable)) ;;;
  e <- item (info s) epoch ;;
  v <- subscript e k ;;
  modify (with_files (insert path (JsonFloats (map reread v)))).

Definition save_epoch (reread : float -> float) (epoch : Z) : M unit :=
  keys <- gets keys_of ;;
  for_each keys (save_key reread epoch).

Definition save_last_epoch (reread : float -> float) : M unit :=
  s <- gets self ;;
  save_epoch reread (Z.of_nat (length (info s)) - 1).

(** [json.load(f)]: the list of a file of numbers; [JSONDecodeError] on text
    that is not JSON.  An object would come back as a [dict], and a figure
    is not text: neither is followed. *)
Definition json_load (f : file) : M (list float) :=
  match f with
  | JsonFloats v => ret v
  | Unparsable => raise JSONDecodeError
  | JsonObject _ | Chart _ _ _ => fun w => (Unmodelled, w)
  end.

(** The body of the loop of [load_epoch]. *)
Definition load_key (epoch : Z) (k : string) : M unit :=
  s <- gets self ;;
  let path := epoch_path (log_dir_path s) k epoch in
  fs <- gets files ;;
  match fs !! path with
  | Some f =>
      key_info <- json_load f ;;
      s <- gets self ;;
      e <- item (info s) (-1) ;;
      modify (with_info (fun l => list_assign l (-1) (dict_set k key_info e)))
  | None => raise FileNotFoundError
  end.

Definition load_epoch (epoch : Z) : M unit :=
  keys <- gets keys_of ;;
  for_each keys (load_key epoch).

(** [del self.info[-1]] *)
Definition del_last : M unit :=
  s <- gets self ;;
  match info s with
  | [] => raise IndexError
  | _ => modify (with_info (@removelast epoch_info))
  end.

(** The [while True] loop of [load]; [None] when [fuel] iterations were not
    enough to leave it. *)
Fixpoint load_loop (fuel : nat) (epoch : Z) (w : World) : option (outcome unit * World) :=
  match fuel with
  | O => None
  | S fuel' =>
      match new_epoch w with
      | (Return _, w1) =>
          match load_epoch epoch w1 with
          | (Return _, w2) => load_loop fuel' (epoch + 1) w2
          | (Raise FileNotFoundError, w2) =>
              Some ((del_last ;;; modify (with_is_loading false)) w2)
          | (r, w2) => Some (r, w2)
          end
      | (r, w1) => Some (r, w1)
      end
  end.

Definition load (fuel : nat) (w : World) : option (outcome unit * World) :=
  load_loop fuel 0 (with_is_loading true w).

(** [Logger(meta_info_dict, log_dir_path, periodic_plot, period)], run on a
    directory holding [fs] and an empty standard output.
    [os.makedirs(..., exist_ok=True)] adds no file. *)
Definition __init__ (fuel : nat) (meta : dict meta_info) (dir : string)
    (plotting : bool) (p : Z) (fs : gmap string file) : option (outcome unit * World) :=
  load fuel (MkWorld (MkLogger meta dir [] plotting p 0 false) fs [] 0).

(** *** Summaries *)

Definition newline : string := String "010"%char EmptyString.
Definition tab : string := String "009"%char EmptyString.

(** [print(line)] *)
Definition print (line : string) : M unit :=
  modify (with_stdout (fun o => o ++ [line])).

(** The names bound at the top level of the module: its three imports and
    the class. *)
Definition module_globals : list string := ["json"; "os"; "plt"; "Logger"].

(** Reading the variable [x] inside a function whose local variables are
    [locals]: a local, else a global, else [NameError].  The globals of the
    module are not strings. *)
Definition load_name (locals : dict string) (x : string) : M string :=
  match dict_get x locals with
  | Some v => ret v
  | None =>
      if existsb (String.eqb x) module_globals then fun w => (Unmodelled, w)
      else raise NameError
  end.

(** What an instance of [Logger] answers to [self.<name>]: the attributes
    [__init__] assigns and the methods of the class ([object]'s own
    double-underscore attributes are left out). *)
Definition instance_attributes : list string :=
  ["meta_info_dict"; "log_dir_path"; "info"; "periodic_plot"; "period";
   "plot_counter"; "is_loading"; "new_epoch"; "log_info"; "plot";
   "save_epoch"; "save_last_epoch"; "load_epoch"; "load"; "get_key_alias";
   "print_epoch_summary"; "save_epoch_summary"; "save_last_epoch_summary";
   "print_last_epoch_summary"].

(** [self.<name>] where a path string is expected. *)
Definition getattr_path (name : string) : M string :=
  if String.eqb name "log_dir_path" then s <- gets self ;; ret (log_dir_path s)
  else if existsb (String.eqb name) instance_attributes then fun w => (Unmodelled, w)
  else raise AttributeError.

(** [get_key_alias(self, key)]: the body reads [k], the parameter is [key]. *)
Definition get_key_alias (key : string) : M string :=
  let locals := [("key", key)] in
  try_except KeyError
    (k <- load_name locals "k" ;;
     s <- gets self ;;
     m <- subscript (meta_info_dict s) k ;;
     match alias m with
     | Some a => ret a
     | None => raise KeyError
     end)
    (load_name locals "k").

Definition float_of_nat (n : nat) : float :=
  PrimFloat.of_uint63 (Uint63.of_Z (Z.of_nat n)).

(** [sum(v)], adding from the left, as CPython does up to 3.11 (later
    versions compensate the rounding errors; no statement below depends on
    the value of a mean). *)
Definition py_sum (v : list float) : float := fold_left PrimFloat.add v 0%float.

(** [sum(v) / len(v)] *)
Definition mean (v : list float) : M float :=
  if (length v =? 0)%nat then raise ZeroDivisionError
  else ret (PrimFloat.div (py_sum v) (float_of_nat (length v))).

(** [f"\nEpoch {epoch:02d} summary:"] *)
Definition summary_header (epoch : Z) : string :=
  newline +:+ "Epoch " +:+ format_02d epoch +:+ " summary:".

(** [print_epoch_summary]; [format_3f] stands for Python's [':.3f']. *)
Definition print_epoch_summary (format_3f : float -> string) (epoch : Z) : M unit :=
  print (summary_header epoch) ;;;
  s <- gets self ;;
  e <- item (info s) epoch ;;
  for_each e (fun kv =>
    a <- get_key_alias (fst kv) ;;
    m <- mean (snd kv) ;;
    print (tab +:+ a +:+ ": " +:+ format_3f m)) ;;;
  print EmptyString.

(** The loop of [save_epoch_summary]. *)
Fixpoint summarize (items : epoch_info) (summary : dict float) : M (dict float) :=
  match items with
  | [] => ret summary
  | (k, v) :: r => m <- mean v ;; summarize r (dict_set k m summary)
  end.

(** The loop variable [k] after the loop: the last key, if there was one. *)
Definition loop_variable (items : epoch_info) : M string :=
  match last (dict_keys items) with
  | Some k => ret k
  | None => raise NameError
  end.

Definition save_epoch_summary (epoch : Z) : M unit :=
  s <- gets self ;;
  e <- item (info s) epoch ;;
  summary <- summarize e [] ;;
  dir <- getattr_path "dir_path" ;;
  k <- loop_variable e ;;
  let name := "__summary_" +:+ k +:+ "_"
              +:+ format_02d (Z.of_nat (length (info s)) - epoch) +:+ ".json" in
  modify (with_files (insert (os_path_join dir name) (JsonObject summary))).

Definition save_last_epoch_summary : M unit := save_epoch_summary (-1).

Definition print_last_epoch_summary (format_3f : float -> string) : M unit :=
  print_epoch_summary format_3f (-1).

(** ** Predicates on stores *)

(** [meta_info_dict] is a dictionary: no key twice. *)
Definition keys_distinct (w : World) : Prop := NoDup (keys_of w).

(** Every epoch record has exactly the declared keys, in their order. *)
Definition keys_exact (w : World) : Prop :=
  Forall (fun e : epoch_info => dict_keys e = keys_of w) (info (self w)).

(** All sequences of one epoch record have the same length. *)
Definition same_length (e : epoch_info) : Prop :=
  exists n : nat, Forall (fun kv => length (snd kv) = n) e.

(** The open epoch, [self.info[-1]], has sequences of one length. *)
Definition open_same_length (w : World) : Prop :=
  match list_index (info (self w)) (-1) with
  | Some e => same_length e
  | None => True
  end.

(** A key that is a plain file name: no path separator in it (and no NUL,
    which [open] rejects).  The files [<k>_<n>.json] and [<k>.pdf] of such
    a key are entries of [log_dir_path] itself. *)
Definition plain_key (k : string) : bool :=
  forallb (fun c => negb (Ascii.eqb c "/"%char) && negb (Ascii.eqb c "000"%char))
          (chars k).

(** Every declared key is a plain file name. *)
Definition keys_plain (w : World) : Prop :=
  Forall (fun k => plain_key k = true) (keys_of w).

(** The chart of one entry of [meta_info_dict] is one [render] draws: its
    key is a plain title, its scale is of [drawn_scales]. *)
Definition chart_drawable (km : string * meta_info) : bool :=
  plain_title (fst km)
  && bool_decide (default "log" (yscale (snd km)) ∈ drawn_scales).

Definition charts_drawable (w : World) : Prop :=
  Forall (fun km => chart_drawable km = true) (meta_info_dict (self w)).

(** A store in which [log_info] can run to its end: plotting is off or the
    period is not zero. *)
Definition period_ok (w : World) : Prop :=
  periodic_plot (self w) = true -> period (self w) <> 0.

(** [w'] differs from [w] at most in chart files and in the count of
    [plot] calls: the logger, standard output and every epoch file are the
    same. *)
Definition same_store (w w' : World) : Prop :=
  self w' = self w
  /\ stdout w' = stdout w
  /\ forall k epoch,
       files w' !! epoch_path (log_dir_path (self w)) k epoch
       = files w !! epoch_path (log_dir_path (self w)) k epoch.

(** ** Predicates on directories *)

(** The file of key [k] and epoch [epoch] exists ([os.path.exists]). *)
Definition present (fs : gmap string file) (dir : string) (epoch : Z) (k : string) : bool :=
  match fs !! epoch_path dir k epoch with
  | Some _ => true
  | None => false
  end.

(** The file of key [k] and epoch [epoch], if it exists, holds a list of floats. *)
Definition parsable (fs : gmap string file) (dir : string) (epoch : Z) (k : string) : bool :=
  match fs !! epoch_path dir k epoch with
  | Some (JsonFloats _) | None => true
  | Some _ => false
  end.

(** The file of key [k] and epoch [epoch] is there and holds a list of floats. *)
Definition readable (fs : gmap string file) (dir : string) (epoch : Z) (k : string) : Prop :=
  exists v, fs !! epoch_path dir k epoch = Some (JsonFloats v).

(** Epoch [epoch] was persisted: every key of [ks] has its file. *)
Definition epoch_complete (fs : gmap string file) (dir : string) (ks : list string)
    (epoch : Z) : bool :=
  forallb (present fs dir epoch) ks.

Definition epoch_parsable (fs : gmap string file) (dir : string) (ks : list string)
    (epoch : Z) : bool :=
  forallb (parsable fs dir epoch) ks.

(** Every epoch file of the declared keys that exists holds a JSON list of
    floats; the directory may hold other files, such as charts. *)
Definition epoch_files_parsable (fs : gmap string file) (dir : string)
    (ks : list string) : Prop :=
  forall j : nat, epoch_parsable fs dir ks (Z.of_nat j) = true.

Definition is_json_floats (f : file) : bool :=
  match f with
  | JsonFloats _ => true
  | _ => false
  end.

(** Every file of the directory holds a JSON list of floats. *)
Definition all_json_floats (fs : gmap string file) : Prop :=
  map_Forall (fun _ f => is_json_floats f = true) fs.

(** What [json.load] yields for key [k] of epoch [epoch] in the directory
    [dir] holding [fs] (the empty list where there is no such list). *)
Definition file_floats (fs : gmap string file) (dir : string) (epoch : Z) (k : string)
    : list float :=
  match fs !! epoch_path dir k epoch with
  | Some (JsonFloats v) => v
  | _ => []
  end.

(** The record of epoch [epoch] as the files of the directory give it. *)
Definition epoch_record (fs : gmap string file) (dir : string) (ks : list string)
    (epoch : Z) : epoch_info :=
  map (fun k => (k, file_floats fs dir epoch k)) ks.

(** The epoch record [e] after the files of [ks] were assigned to it. *)
Definition loaded (fs : gmap string file) (dir : string) (epoch : Z)
    (ks : list string) (e : epoch_info) : epoch_info :=
  fold_left (fun e k => dict_set k (file_floats fs dir epoch k) e) ks e.

(** The record [e] as [json.load] reads it from the files [json.dump]
    wrote for it. *)
Definition reread_record (reread : float -> float) (e : epoch_info) : epoch_info :=
  map (fun kv => (fst kv, map reread (snd kv))) e.

(** [reread] returns every float of the record [e]. *)
Definition exact_on (reread : float -> float) (e : epoch_info) : Prop :=
  Forall (fun kv => Forall (fun x => reread x = x) (snd kv)) e.

(** The directory after [save_epoch] wrote the record [e] of epoch [epoch]. *)
Definition saved (reread : float -> float) (dir : string) (epoch : Z) (e : epoch_info)
    (ks : list string) (fs : gmap string file) : gmap string file :=
  fold_left
    (fun fs k =>
       <[epoch_path dir k epoch := JsonFloats (map reread (default [] (dict_get k e)))]> fs)
    ks fs.

(** The last character of a string. *)
Fixpoint string_last (s : string) : option ascii :=
  match s with
  | EmptyString => None
  | String c EmptyString => Some c
  | String _ r => string_last r
  end.

(** Reading a numeral back: the inverse of [format_02d] on epoch numbers. *)
Definition parse_02d (s : string) : option Z :=
  option_map Z.of_int (NilZero.int_of_string s).

(** ** Calls of [log_info] *)

(** [info_to_log] gives a float for key [k]. *)
Definition valid_value (info_to_log : dict pyval) (k : string) : bool :=
  match dict_get k info_to_log with
  | Some (PyFloat _) => true
  | _ => false
  end.

(** The precondition of [log_info]: a float for every declared key. *)
Definition valid_input (info_to_log : dict pyval) (ks : list string) : bool :=
  forallb (valid_value info_to_log) ks.

(** The plot counter after one [log_info] call that returns. *)
Definition next_counter (s : Logger) : Z :=
  if periodic_plot s then (plot_counter s + 1) mod period s else plot_counter s.

(** Whether that call runs [plot]. *)
Definition plots_now (s : Logger) : bool :=
  (periodic_plot s && (next_counter s =? 0))%bool.

(** [save_epoch], then a new open epoch, then [load_epoch] of the same index. *)
Definition save_then_load (reread : float -> float) (epoch : Z) : M unit :=
  save_epoch reread epoch ;;; new_epoch ;;; load_epoch epoch.

(** ** Two statements of the specification that the code does not meet *)

(** Construction returns with the [k] persisted epochs followed by one open
    epoch, every declared key of which is mapped to the empty sequence. *)
Definition resumes_with_open_epoch (meta : dict meta_info) (dir : string)
    (plotting : bool) (p : Z) (fs : gmap string file) (k : nat) : Prop :=
  exists fuel w,
    __init__ fuel meta dir plotting p fs = Some (Return tt, w)
    /\ info (self w)
       = map (epoch_record fs dir (dict_keys meta)) (map Z.of_nat (seq 0 k))
         ++ [map (fun key => (key, [])) (dict_keys meta)].

(** After any [log_info] call on a store that satisfies the invariants,
    the sequences of the open epoch have one length. *)
Definition log_info_keeps_same_length (info_to_log : dict pyval) (w : World) : Prop :=
  keys_distinct w -> keys_exact w -> open_same_length w ->
  open_same_length (snd (log_info info_to_log w)).

(** ** Running examples *)

(** The metric declaration of the specification's example, with period 2. *)
Definition example_meta : dict meta_info :=
  [("loss", MetaInfo None None); ("acc", MetaInfo None (Some "linear"))].

(** A directory with epochs 0 and 1 on disk. *)
Definition example_files : gmap string file :=
  <["logs/loss_00.json" := JsonFloats [0.5%float; 0.4%float]]>
  (<["logs/acc_00.json" := JsonFloats [0.1%float; 0.2%float]]>
  (<["logs/loss_01.json" := JsonFloats [0.3%float]]>
  (<["logs/acc_01.json" := JsonFloats [0.25%float]]> ∅))).

Definition example_logger (l : list epoch_info) : Logger :=
  MkLogger example_meta "logs" l true 2 0 false.

(** A store right after [new_epoch], on the directory [example_files]. *)
Definition example_world : World :=
  MkWorld (example_logger [ [("loss", []); ("acc", [])] ]) example_files [] 0.

(** The same store on a directory where only the first file of epoch 2
    was written. *)
Definition example_partial_world : World :=
  MkWorld (example_logger [ [("loss", []); ("acc", [])] ])
          (<["logs/loss_02.json" := JsonFloats [0.125%float]]> example_files) [] 0.

(** A store with one recorded epoch and an empty directory. *)
Definition example_record : epoch_info :=
  [("loss", [0.5%float; 0.25%float]); ("acc", [0.125%float; 0.75%float])].

Definition example_recorded_world : World :=
  MkWorld (example_logger [example_record]) ∅ [] 0.

(** A mapping with a float for both keys of [example_meta], and one that
    lacks ["acc"]. *)
Definition example_values : dict pyval :=
  [("loss", PyFloat 0.5%float); ("acc", PyFloat 0.125%float)].

Definition example_values_missing : dict pyval := [("loss", PyFloat 0.5%float)].

(** The store [example_world] after the call
    [log_info example_values_missing] raised at ["acc"]. *)
Definition example_failed_world : World :=
  MkWorld (example_logger [ [("loss", [0.5%float]); ("acc", [])] ]) example_files [] 0.

(** A store with one recorded epoch whose key ["acc"] is configured with
    a scale that [matplotlib] does not know. *)
Definition example_unknown_scale_world : World :=
  MkWorld (MkLogger [("loss", MetaInfo None None);
                     ("acc", MetaInfo None (Some "logarithmic"))]
                    "logs" [example_record] true 2 0 false) ∅ [] 0.

(** A store right after [new_epoch], on a directory whose two files of
    epoch 0 hold lists of different lengths. *)
Definition example_uneven_world : World :=
  MkWorld (example_logger [ [("loss", []); ("acc", [])] ])
          (<["logs/loss_00.json" := JsonFloats [0.5%float; 0.25%float]]>
           (<["logs/acc_00.json" := JsonFloats [0.125%float]]> ∅)) [] 0.

(** ** Further notions for the remaining methods *)

(** All values logged under key [k], over the epochs in order: what [plot]
    draws for [k]. *)
Definition series_of (k : string) (epochs : list epoch_info) : list float :=
  concat (map (fun e : epoch_info => default [] (dict_get k e)) epochs).

(** The directory after one file per element of [l] was written. *)
Definition write_all {A} (path : A -> string) (content : A -> file) (l : list A)
    (fs : gmap string file) : gmap string file :=
  fold_left (fun fs a => <[path a := content a]> fs) l fs.

(** The chart [plot] saves for the entry [kv] of the gathered series. *)
Definition chart_of (meta : dict meta_info) (kv : string * list float) : file :=
  Chart (fst kv)
        (match dict_get (fst kv) meta with
         | Some m => default "log" (yscale m)
         | None => "log"
         end)
        (snd kv).

(** [save_epoch(0)], ..., [save_epoch(n - 1)] for the [n] records of the store. *)
Definition save_all (reread : float -> float) : M unit :=
  s <- gets self ;;
  for_each (map Z.of_nat (seq 0 (length (info s)))) (save_epoch reread).

(** The directory holds no epoch file of the keys [ks]. *)
Definition no_epoch_files (fs : gmap string file) (dir : string) (ks : list string) : Prop :=
  forall k epoch, k ∈ ks -> fs !! epoch_path dir k epoch = None.

(** The part of the state an assignment to [self.info[-1]] cannot reach. *)
Definition frame_of (w : World) :=
  (removelast (info (self w)), length (info (self w)), meta_info_dict (self w),
   log_dir_path (self w), periodic_plot (self w), period (self w),
   plot_counter (self w), is_loading (self w), files w, stdout w, plot_calls w).

(** The outcome of [save_epoch_summary epoch], read off the store. *)
Definition summary_error (l : list epoch_info) (epoch : Z) : exn :=
  match list_index l epoch with
  | None => IndexError
  | Some e =>
      if existsb (fun kv : string * list float => (length (snd kv) =? 0)%nat) e
      then ZeroDivisionError
      else AttributeError
  end.


(** * Properties *)

(** ** Examples *)

Example format_02d_examples :
  format_02d 0 = "00" /\ format_02d 7 = "07" /\ format_02d 12 = "12"
  /\ format_02d 123 = "123" /\ format_02d (-1) = "-1".
Proof. repeat split; reflexivity. Qed.

Example epoch_path_example : epoch_path "logs" "loss" 1 = "logs/loss_01.json".
Proof. reflexivity. Qed.

Example resume_example :
  option_map (fun r => (fst r, info (self (snd r)), is_loading (self (snd r))))
    (__init__ 3 example_meta "logs" true 2 example_files)
  = Some (Return tt,
          [ [("loss", [0.5%float; 0.4%float]); ("acc", [0.1%float; 0.2%float])];
            [("loss", [0.3%float]); ("acc", [0.25%float])] ],
          false).
Proof. vm_compute. reflexivity. Qed.

(** ** Dictionaries *)

Section Dict.
Context {V : Type}.
Implicit Types (d : dict V) (k : string) (v : V).

Lemma dict_get_set_eq k v d : dict_get k (dict_set k v d) = Some v.
Proof.
  induction d as [|[k' v'] r IH]; simpl.
  - by rewrite String.eqb_refl.
  - destruct (String.eqb_spec k' k) as [->|Hne]; simpl.
    + by rewrite String.eqb_refl.
    + by destruct (String.eqb_spec k' k).
Qed.

Lemma dict_get_set_ne k k' v d :
  k ≠ k' -> dict_get k' (dict_set k v d) = dict_get k' d.
Proof.
  intros Hne. induction d as [|[k0 v0] r IH]; simpl.
  - by destruct (String.eqb_spec k k').
  - destruct (String.eqb_spec k0 k) as [->|Hk0]; simpl.
    + by destruct (String.eqb_spec k k').
    + by rewrite IH.
Qed.

Lemma dict_get_is_Some k d : is_Some (dict_get k d) <-> k ∈ dict_keys d.
Proof.
  induction d as [|[k' v'] r IH]; simpl.
  - split; [intros [? ?]; discriminate | inversion 1].
  - rewrite elem_of_cons. destruct (String.eqb_spec k' k) as [->|Hne].
    + split; eauto.
    + rewrite IH. split; [tauto | intros [?|?]; congruence].
Qed.

Lemma dict_keys_set_present k v d :
  k ∈ dict_keys d -> dict_keys (dict_set k v d) = dict_keys d.
Proof.
  induction d as [|[k' v'] r IH]; simpl.
  - inversion 1.
  - rewrite elem_of_cons. intros Hin.
    destruct (String.eqb_spec k' k) as [->|Hne]; simpl; [done|].
    f_equal. apply IH. destruct Hin; congruence.
Qed.

Lemma dict_set_absent k v d :
  k ∉ dict_keys d -> dict_set k v d = d ++ [(k, v)].
Proof.
  induction d as [|[k' v'] r IH]; simpl; [done|].
  rewrite not_elem_of_cons. intros [Hne Hin].
  destruct (String.eqb_spec k' k); [congruence|].
  by rewrite IH.
Qed.

Lemma fold_dict_set_fresh keys v d :
  NoDup keys -> (forall k, k ∈ keys -> k ∉ dict_keys d) ->
  fold_left (fun d k => dict_set k v d) keys d = d ++ map (fun k => (k, v)) keys.
Proof.
  intros Hnd. revert d. induction Hnd as [|k keys Hk Hnd IH]; intros d Hfresh; simpl.
  - by rewrite app_nil_r.
  - rewrite dict_set_absent by (apply Hfresh; left).
    rewrite IH.
    + by rewrite <- app_assoc.
    + intros k' Hk'. unfold dict_keys. rewrite map_app. simpl.
      rewrite elem_of_app, list_elem_of_singleton.
      intros [Hin| ->]; [|done].
      eapply Hfresh; [right; exact Hk'|exact Hin].
Qed.

Lemma dict_fromkeys_distinct keys v :
  NoDup keys -> dict_fromkeys keys v = map (fun k => (k, v)) keys.
Proof.
  intros Hnd. unfold dict_fromkeys.
  rewrite fold_dict_set_fresh; [done|done|]. intros k _. inversion 1.
Qed.

Lemma dict_keys_map (f : string -> V) keys :
  dict_keys (map (fun k => (k, f k)) keys) = keys.
Proof. induction keys as [|k r IH]; simpl; [done|by rewrite IH]. Qed.

Lemma dict_keys_fromkeys keys v :
  NoDup keys -> dict_keys (dict_fromkeys keys v) = keys.
Proof.
  intros Hnd. rewrite dict_fromkeys_distinct by done.
  apply (dict_keys_map (fun _ => v)).
Qed.
End Dict.

Lemma dict_ext {V} (d1 d2 : dict V) :
  dict_keys d1 = dict_keys d2 -> NoDup (dict_keys d1) ->
  (forall k, k ∈ dict_keys d1 -> dict_get k d1 = dict_get k d2) -> d1 = d2.
Proof.
  revert d2. induction d1 as [|[k v] r IH]; intros [|[k2 v2] r2]; simpl; try done.
  intros [= <- Hr] [Hk Hnd]%NoDup_cons Hget.
  assert (v = v2) as <-.
  { specialize (Hget k ltac:(left)). rewrite String.eqb_refl in Hget. congruence. }
  f_equal. apply IH; [done|done|]. intros k' Hk'.
  specialize (Hget k' ltac:(by right)).
  destruct (String.eqb_spec k k') as [->|_]; [done|exact Hget].
Qed.

(** ** Python list indexing *)

Lemma list_index_last {A} (l : list A) (x : A) : list_index (l ++ [x]) (-1) = Some x.
Proof.
  unfold list_index. rewrite length_app. simpl.
  rewrite (proj2 (Z.leb_le _ _)) by lia.
  replace (Z.to_nat (Z.of_nat (length l + 1) + -1)) with (length l + 0)%nat by lia.
  by rewrite lookup_app_r, Nat.add_0_r, Nat.sub_diag by lia.
Qed.

Lemma list_assign_last {A} (l : list A) (x y : A) : list_assign (l ++ [x]) (-1) y = l ++ [y].
Proof.
  unfold list_assign. rewrite length_app. simpl.
  rewrite (proj2 (Z.leb_le _ _)) by lia.
  replace (Z.to_nat (Z.of_nat (length l + 1) + -1)) with (length l + 0)%nat by lia.
  by rewrite insert_app_r.
Qed.

Lemma list_index_nil {A} (i : Z) : list_index (@nil A) i = None.
Proof.
  unfold list_index. destruct (0 <=? i); [apply lookup_nil|].
  destruct (_ <=? i); [apply lookup_nil|done].
Qed.

Lemma list_index_elem {A} (l : list A) (i : Z) (x : A) : list_index l i = Some x -> x ∈ l.
Proof.
  unfold list_index. destruct (0 <=? i); [|destruct (_ <=? i); [|done]];
    intros H; by eapply list_elem_of_lookup_2.
Qed.

Lemma nonempty_snoc {A} (l : list A) : l <> [] -> exists init x, l = init ++ [x].
Proof.
  destruct l as [|a l] using rev_ind; [done|]. eauto.
Qed.

(** ** File names *)

Lemma string_app_length (s t : string) :
  String.length (s +:+ t) = (String.length s + String.length t)%nat.
Proof. induction s as [|c s IH]; simpl; [done|by rewrite IH]. Qed.

Lemma string_app_inv_tail (s1 s2 t : string) : s1 +:+ t = s2 +:+ t -> s1 = s2.
Proof.
  revert s2. induction s1 as [|c s1 IH]; intros [|c2 s2] H; simpl in H.
  - done.
  - apply (f_equal String.length) in H.
    rewrite !string_app_length in H. simpl in H. lia.
  - apply (f_equal String.length) in H.
    rewrite !string_app_length in H. simpl in H. lia.
  - injection H as -> H. f_equal. by apply IH.
Qed.

Lemma string_last_app (s t : string) : t <> EmptyString -> string_last (s +:+ t) = string_last t.
Proof.
  intros Ht. induction s as [|c s IH]; simpl; [done|].
  rewrite <- IH. destruct (s +:+ t) eqn:E; [|done].
  destruct s; simpl in E; [by elim Ht | discriminate].
Qed.

Lemma os_path_join_last (a b : string) :
  b <> EmptyString -> string_last (os_path_join a b) = string_last b.
Proof.
  intros Hb. unfold os_path_join.
  destruct (startswith_sep b); [done|].
  destruct (_ || _)%bool.
  - by apply string_last_app.
  - rewrite string_last_app; [by apply (string_last_app "/")|].
    destruct b; [done|discriminate].
Qed.

Lemma chart_path_not_epoch_path (dir k k' : string) (epoch : Z) :
  chart_path dir k <> epoch_path dir k' epoch.
Proof.
  intros H. apply (f_equal string_last) in H. revert H.
  unfold chart_path, epoch_path.
  rewrite !os_path_join_last.
  - rewrite (string_last_app k ".pdf") by discriminate.
    rewrite (string_last_app k'), (string_last_app "_"),
      (string_last_app (format_02d epoch) ".json"); try discriminate.
    + destruct (format_02d epoch); discriminate.
  - destruct k'; discriminate.
  - destruct k; discriminate.
Qed.

Lemma startswith_sep_app (k t : string) :
  startswith_sep k = false -> startswith_sep t = false -> startswith_sep (k +:+ t) = false.
Proof. destruct k; simpl; auto. Qed.

(** For a fixed directory and epoch, two keys that do not begin with the
    separator and have the same path are the same key. *)
Lemma epoch_path_inj_key (dir k1 k2 : string) (epoch : Z) :
  startswith_sep k1 = false -> startswith_sep k2 = false ->
  epoch_path dir k1 epoch = epoch_path dir k2 epoch -> k1 = k2.
Proof.
  intros H1 H2. unfold epoch_path, os_path_join.
  rewrite (startswith_sep_app k1), (startswith_sep_app k2) by done.
  destruct (_ || _)%bool; intros H.
  - apply String.app_inj in H. by apply string_app_inv_tail in H.
  - do 2 apply String.app_inj in H. by apply string_app_inv_tail in H.
Qed.

Lemma chart_path_inj_key (dir k1 k2 : string) :
  startswith_sep k1 = false -> startswith_sep k2 = false ->
  chart_path dir k1 = chart_path dir k2 -> k1 = k2.
Proof.
  intros H1 H2. unfold chart_path, os_path_join.
  rewrite (startswith_sep_app k1), (startswith_sep_app k2) by done.
  destruct (_ || _)%bool; intros H.
  - apply String.app_inj in H. by apply string_app_inv_tail in H.
  - do 2 apply String.app_inj in H. by apply string_app_inv_tail in H.
Qed.

Lemma plain_key_relative (k : string) : plain_key k = true -> startswith_sep k = false.
Proof.
  destruct k as [|c k]; [done|]. unfold plain_key. simpl.
  intros [[H _]%andb_prop _]%andb_prop. by apply negb_true_iff in H.
Qed.

(** Distinct plain keys have distinct epoch paths and distinct chart paths. *)
Lemma plain_keys_paths (path : string -> string) (ks : list string) :
  (forall k1 k2, startswith_sep k1 = false -> startswith_sep k2 = false ->
                 path k1 = path k2 -> k1 = k2) ->
  NoDup ks -> Forall (fun k => plain_key k = true) ks -> NoDup (map path ks).
Proof.
  intros Hinj. induction ks as [|k ks IH]; intros Hnd Hpl; simpl; [constructor|].
  apply NoDup_cons in Hnd as [Hk Hnd]. apply Forall_cons in Hpl as [Hk0 Hpl].
  apply NoDup_cons. split; [|by apply IH].
  intros (k' & Heq & Hk')%list_elem_of_fmap.
  apply Hinj in Heq; [congruence|by apply plain_key_relative|].
  rewrite Forall_forall in Hpl. by apply plain_key_relative, Hpl.
Qed.

Lemma plain_keys_epoch_paths (w : World) (epoch : Z) :
  keys_distinct w -> keys_plain w ->
  NoDup (map (fun k => epoch_path (log_dir_path (self w)) k epoch) (keys_of w)).
Proof.
  apply plain_keys_paths. intros k1 k2. apply epoch_path_inj_key.
Qed.

Lemma plain_keys_chart_paths (w : World) :
  keys_distinct w -> keys_plain w ->
  NoDup (map (chart_path (log_dir_path (self w))) (keys_of w)).
Proof.
  apply plain_keys_paths. intros k1 k2. apply chart_path_inj_key.
Qed.

(** ** Loops *)

Lemma for_each_app {A} (l1 l2 : list A) (body : A -> M unit) (w : World) :
  for_each (l1 ++ l2) body w = (for_each l1 body ;;; for_each l2 body) w.
Proof.
  revert w. induction l1 as [|x l1 IH]; intros w; simpl.
  - done.
  - unfold bind in *. destruct (body x w) as [[[]| |] w1]; [|done|done].
    by rewrite IH.
Qed.

(** What every iteration keeps, the loop keeps, however it ends. *)
Lemma for_each_invariant {A} (P : World -> Prop) (l : list A) (body : A -> M unit) :
  (forall x w, x ∈ l -> P w -> P (snd (body x w))) ->
  forall w, P w -> P (snd (for_each l body w)).
Proof.
  induction l as [|x l IH]; intros Hbody w Hw; simpl; [done|].
  unfold bind. pose proof (Hbody x w ltac:(left) Hw) as H1.
  destruct (body x w) as [[[]| |] w1]; simpl in *; [|done|done].
  apply IH; [|done]. intros y w' Hy. apply Hbody. by right.
Qed.

(** ** [load_epoch] *)

Lemma load_key_readable (epoch : Z) (k : string) (w : World) init e v :
  info (self w) = init ++ [e] ->
  files w !! epoch_path (log_dir_path (self w)) k epoch = Some (JsonFloats v) ->
  load_key epoch k w = (Return tt, with_info (fun _ => init ++ [dict_set k v e]) w).
Proof.
  intros Hinfo Hfile. unfold load_key. unfold_monad. simpl.
  rewrite Hfile. simpl. rewrite Hinfo, list_index_last.
  unfold with_info. simpl. by rewrite Hinfo, list_assign_last.
Qed.

Lemma load_key_missing (epoch : Z) (k : string) (w : World) :
  files w !! epoch_path (log_dir_path (self w)) k epoch = None ->
  load_key epoch k w = (Raise FileNotFoundError, w).
Proof.
  intros Hfile. unfold load_key. unfold_monad. simpl. by rewrite Hfile.
Qed.

Lemma load_keys_readable (epoch : Z) (ks : list string) :
  forall (w : World) init e,
    info (self w) = init ++ [e] ->
    (forall k, k ∈ ks -> readable (files w) (log_dir_path (self w)) epoch k) ->
    for_each ks (load_key epoch) w
    = (Return tt,
       with_info (fun _ => init ++ [loaded (files w) (log_dir_path (self w)) epoch ks e]) w).
Proof.
  induction ks as [|k ks IH]; intros w init e Hinfo Hread; simpl.
  - unfold ret, with_info. rewrite <- Hinfo. by destruct w as [[]].
  - destruct (Hread k ltac:(left)) as [v Hv].
    unfold bind at 1. rewrite (load_key_readable epoch k w init e v) by done.
    rewrite (IH _ init (dict_set k v e)).
    + unfold loaded, file_floats. simpl. by rewrite Hv.
    + done.
    + intros k' Hk'. apply Hread. by right.
Qed.

Lemma load_keys_missing (epoch : Z) (pre post : list string) (k : string) (w : World) init e :
  info (self w) = init ++ [e] ->
  (forall k', k' ∈ pre -> readable (files w) (log_dir_path (self w)) epoch k') ->
  files w !! epoch_path (log_dir_path (self w)) k epoch = None ->
  for_each (pre ++ k :: post) (load_key epoch) w
  = (Raise FileNotFoundError,
     with_info (fun _ => init ++ [loaded (files w) (log_dir_path (self w)) epoch pre e]) w).
Proof.
  intros Hinfo Hread Hmiss. rewrite for_each_app. unfold bind at 1.
  rewrite (load_keys_readable epoch pre w init e) by done.
  simpl. unfold bind. by rewrite load_key_missing.
Qed.

Lemma loaded_get fs dir epoch (ks : list string) :
  forall (e : epoch_info) (k : string),
    dict_get k (loaded fs dir epoch ks e)
    = if decide (k ∈ ks) then Some (file_floats fs dir epoch k) else dict_get k e.
Proof.
  unfold loaded. induction ks as [|k0 ks IH]; intros e k; simpl.
  - done.
  - rewrite IH. destruct (decide (k ∈ ks)) as [Hin|Hnin].
    + rewrite decide_True; [done|by right].
    + destruct (decide (k0 = k)) as [->|Hne].
      * rewrite decide_True by left. apply dict_get_set_eq.
      * rewrite decide_False.
        -- by apply dict_get_set_ne.
        -- rewrite elem_of_cons. intros [?|?]; congruence.
Qed.

Lemma loaded_keys fs dir epoch (ks : list string) :
  forall e : epoch_info,
    (forall k, k ∈ ks -> k ∈ dict_keys e) ->
    dict_keys (loaded fs dir epoch ks e) = dict_keys e.
Proof.
  unfold loaded. induction ks as [|k0 ks IH]; intros e Hin; simpl; [done|].
  rewrite IH.
  - apply dict_keys_set_present, Hin. left.
  - intros k Hk. rewrite dict_keys_set_present by (apply Hin; left).
    apply Hin. by right.
Qed.

(** Assigning the file of every key of a record with distinct keys gives
    the record of the files. *)
Lemma loaded_all fs dir epoch (e : epoch_info) :
  NoDup (dict_keys e) ->
  loaded fs dir epoch (dict_keys e) e
  = map (fun k => (k, file_floats fs dir epoch k)) (dict_keys e).
Proof.
  intros Hnd. apply dict_ext.
  - rewrite loaded_keys by done. by rewrite dict_keys_map.
  - by rewrite loaded_keys.
  - intros k Hk. rewrite loaded_keys in Hk by done.
    rewrite loaded_get, decide_True by done.
    symmetry. clear Hnd. induction (dict_keys e) as [|k0 l IH]; [inversion Hk|].
    simpl. destruct (String.eqb_spec k0 k) as [->|Hne]; [done|].
    apply IH. apply elem_of_cons in Hk. destruct Hk; congruence.
Qed.

Lemma present_parsable_readable fs dir epoch k :
  present fs dir epoch k = true -> parsable fs dir epoch k = true ->
  readable fs dir epoch k.
Proof.
  unfold present, parsable, readable.
  destruct (fs !! _) as [[]|]; try done. eauto.
Qed.

Lemma forallb_elem {A} (p : A -> bool) (l : list A) (x : A) :
  forallb p l = true -> x ∈ l -> p x = true.
Proof.
  rewrite forallb_forall. intros H Hx. apply H. by apply list_elem_of_In.
Qed.

(** A list on which [p] fails somewhere splits at the first failure. *)
Lemma forallb_false_split {A} (p : A -> bool) (l : list A) :
  forallb p l = false ->
  exists pre x post, l = pre ++ x :: post /\ forallb p pre = true /\ p x = false.
Proof.
  induction l as [|a l IH]; simpl; [done|].
  destruct (p a) eqn:Ha; simpl.
  - intros (pre & x & post & -> & Hpre & Hx)%IH.
    exists (a :: pre), x, post. simpl. by rewrite Ha.
  - intros _. by exists [], a, l.
Qed.

Lemma forallb_app_true {A} (p : A -> bool) (l1 l2 : list A) :
  forallb p (l1 ++ l2) = true -> forallb p l1 = true /\ forallb p l2 = true.
Proof. rewrite forallb_app. by intros [? ?]%andb_prop. Qed.

Lemma readable_prefix fs dir epoch (pre : list string) :
  forallb (present fs dir epoch) pre = true ->
  forallb (parsable fs dir epoch) pre = true ->
  forall k, k ∈ pre -> readable fs dir epoch k.
Proof.
  intros Hp Hq k Hk.
  apply present_parsable_readable; eapply forallb_elem; eauto.
Qed.

(** C5. [load_epoch epoch], in a store with an open epoch and a directory
    whose files of that epoch hold lists of floats: when every declared
    key has its file, the call returns and only the last record of
    [self.info] changed, each declared key now mapped to the list of its
    file, whatever [epoch] is; when some declared key has no file, the call
    raises [FileNotFoundError]. *)
Theorem load_epoch_replaces_open_epoch (epoch : Z) (w : World) init e :
  info (self w) = init ++ [e] ->
  epoch_parsable (files w) (log_dir_path (self w)) (keys_of w) epoch = true ->
  (epoch_complete (files w) (log_dir_path (self w)) (keys_of w) epoch = true ->
   exists e',
     load_epoch epoch w = (Return tt, with_info (fun _ => init ++ [e']) w)
     /\ (forall k, k ∈ keys_of w ->
           dict_get k e' = Some (file_floats (files w) (log_dir_path (self w)) epoch k))
     /\ (forall k, k ∉ keys_of w -> dict_get k e' = dict_get k e))
  /\ (epoch_complete (files w) (log_dir_path (self w)) (keys_of w) epoch = false ->
      fst (load_epoch epoch w) = Raise FileNotFoundError).
Proof.
  intros Hinfo Hpars. unfold load_epoch, epoch_complete, epoch_parsable in *.
  split.
  - intros Hall.
    exists (loaded (files w) (log_dir_path (self w)) epoch (keys_of w) e).
    split; [|split].
    + unfold bind, gets.
      apply load_keys_readable; [done|]. by apply readable_prefix.
    + intros k Hk. by rewrite loaded_get, decide_True.
    + intros k Hk. by rewrite loaded_get, decide_False.
  - intros (pre & k & post & Hkeys & Hpre & Hk)%forallb_false_split.
    unfold bind, gets. rewrite Hkeys in *.
    apply forallb_app_true in Hpars as [Hpars _].
    rewrite (load_keys_missing epoch pre post k w init e); [done|done| |].
    + by apply readable_prefix.
    + unfold present in Hk. by destruct (files w !! _).
Qed.

Lemma load_epoch_replaces_open_epoch_witness :
  (exists e',
     load_epoch 1 example_world
     = (Return tt, with_info (fun _ => [] ++ [e']) example_world)
     /\ (forall k, k ∈ keys_of example_world ->
           dict_get k e' = Some (file_floats (files example_world) "logs" 1 k))
     /\ (forall k, k ∉ keys_of example_world ->
           dict_get k e' = dict_get k [("loss", []); ("acc", [])]))
  /\ fst (load_epoch 2 example_world) = Raise FileNotFoundError.
Proof.
  split.
  - apply (load_epoch_replaces_open_epoch 1 example_world [] [("loss", []); ("acc", [])]);
      reflexivity.
  - apply (load_epoch_replaces_open_epoch 2 example_world [] [("loss", []); ("acc", [])]);
      reflexivity.
Defined.

(** C10. [load_epoch] is not atomic: when the file of key [k] is missing
    and the files of the keys before it hold lists of floats, the call
    raises [FileNotFoundError] in a state where the open epoch already
    maps every earlier key to the list of its file; the other keys of the
    open epoch are as before. *)
Theorem load_epoch_not_atomic (epoch : Z) (w : World) init e pre k post :
  info (self w) = init ++ [e] ->
  keys_of w = pre ++ k :: post ->
  forallb (present (files w) (log_dir_path (self w)) epoch) pre = true ->
  forallb (parsable (files w) (log_dir_path (self w)) epoch) pre = true ->
  present (files w) (log_dir_path (self w)) epoch k = false ->
  exists e',
    load_epoch epoch w = (Raise FileNotFoundError, with_info (fun _ => init ++ [e']) w)
    /\ (forall k', k' ∈ pre ->
          dict_get k' e' = Some (file_floats (files w) (log_dir_path (self w)) epoch k'))
    /\ (forall k', k' ∉ pre -> dict_get k' e' = dict_get k' e).
Proof.
  intros Hinfo Hkeys Hpre Hpars Hk.
  exists (loaded (files w) (log_dir_path (self w)) epoch pre e).
  split; [|split].
  - unfold load_epoch, bind, gets. rewrite Hkeys.
    apply load_keys_missing; [done|by apply readable_prefix|].
    unfold present in Hk. by destruct (files w !! _).
  - intros k' Hk'. by rewrite loaded_get, decide_True.
  - intros k' Hk'. by rewrite loaded_get, decide_False.
Qed.

Lemma load_epoch_not_atomic_witness :
  exists e',
    load_epoch 2 example_partial_world
    = (Raise FileNotFoundError, with_info (fun _ => [] ++ [e']) example_partial_world)
    /\ (forall k', k' ∈ ["loss"] ->
          dict_get k' e' = Some (file_floats (files example_partial_world) "logs" 2 k'))
    /\ (forall k', k' ∉ ["loss"] -> dict_get k' e' = dict_get k' [("loss", []); ("acc", [])]).
Proof.
  apply (load_epoch_not_atomic 2 example_partial_world [] [("loss", []); ("acc", [])]
           ["loss"] "acc" []); reflexivity.
Defined.

Example load_epoch_partial_overwrite :
  load_epoch 2 example_partial_world
  = (Raise FileNotFoundError,
     with_info (fun _ => [ [("loss", [0.125%float]); ("acc", [])] ]) example_partial_world).
Proof. vm_compute. reflexivity. Qed.

(** ** Construction and the resume loop *)

Lemma new_epoch_loading (w : World) :
  is_loading (self w) = true ->
  new_epoch w = (Return tt, with_info (fun l => l ++ [dict_fromkeys (keys_of w) []]) w).
Proof.
  intros Hl. unfold new_epoch. unfold_monad. rewrite Hl. simpl. done.
Qed.

Lemma map_seq_S {B} (f : nat -> B) (m : nat) :
  map f (seq 0 (S m)) = f 0%nat :: map (fun j => f (S j)) (seq 0 m).
Proof. simpl. f_equal. by rewrite <- seq_shift, map_map. Qed.

Lemma load_loop_resumes (fs : gmap string file) (dir : string) (ks : list string) (m : nat) :
  forall (extra : nat) (n : Z) (w : World),
    NoDup ks ->
    keys_of w = ks -> files w = fs -> log_dir_path (self w) = dir ->
    is_loading (self w) = true ->
    (forall j, (j < m)%nat -> epoch_complete fs dir ks (n + Z.of_nat j) = true) ->
    (forall j, (j <= m)%nat -> epoch_parsable fs dir ks (n + Z.of_nat j) = true) ->
    epoch_complete fs dir ks (n + Z.of_nat m) = false ->
    load_loop (S m + extra) n w
    = Some (Return tt,
            with_is_loading false
              (with_info (fun l => l ++ map (fun j => epoch_record fs dir ks (n + Z.of_nat j))
                                           (seq 0 m)) w)).
Proof.
  induction m as [|m IH]; intros extra n w Hnd Hks Hfs Hdir Hload Hcomp Hpars Hlast.
  - specialize (Hpars 0%nat ltac:(lia)). simpl in *. rewrite new_epoch_loading by done.
    rewrite Z.add_0_r in *.
    set (w1 := with_info _ w).
    destruct (forallb_false_split _ _ Hlast) as (pre & k & post & Hsplit & Hpre & Hk).
    unfold load_epoch, bind at 1, gets.
    replace (keys_of w1) with (pre ++ k :: post) by (by rewrite <- Hsplit, <- Hks).
    unfold epoch_parsable in Hpars. rewrite Hsplit in Hpars.
    apply forallb_app_true in Hpars as [Hpars _].
    rewrite (load_keys_missing n pre post k w1 (info (self w)) (dict_fromkeys (keys_of w) [])).
    + unfold del_last. unfold_monad. simpl.
      destruct (info (self w) ++ _) eqn:E; [by destruct (info (self w))|].
      rewrite <- E. unfold with_is_loading, with_info. simpl.
      by rewrite removelast_last, app_nil_r.
    + done.
    + subst w1. simpl. rewrite Hfs, Hdir. by apply readable_prefix.
    + subst w1. simpl. rewrite Hfs, Hdir. unfold present in Hk.
      by destruct (fs !! _).
  - change (S (S m) + extra)%nat with (S (S m + extra)).
    cbn [load_loop]. rewrite new_epoch_loading by done.
    set (w1 := with_info _ w).
    pose proof (Hcomp 0%nat ltac:(lia)) as Hc0. pose proof (Hpars 0%nat ltac:(lia)) as Hp0.
    rewrite Z.add_0_r in Hc0, Hp0.
    unfold load_epoch, bind at 1, gets.
    rewrite (load_keys_readable n (keys_of w1) w1 (info (self w)) (dict_fromkeys (keys_of w) [])).
    + set (w2 := with_info _ w1).
      rewrite (IH extra (n + 1) w2); try done.
      * assert ((info (self w) ++ [loaded fs dir n ks (dict_fromkeys ks [])])
                ++ map (fun j => epoch_record fs dir ks (n + 1 + Z.of_nat j)) (seq 0 m)
                = info (self w)
                  ++ map (fun j => epoch_record fs dir ks (n + Z.of_nat j)) (seq 0 (S m)))
          as Hlist.
        { rewrite <- app_assoc. f_equal. rewrite map_seq_S. simpl. f_equal.
          - rewrite <- (dict_keys_fromkeys ks (@nil float)) at 1 by done.
            rewrite loaded_all by (by rewrite dict_keys_fromkeys).
            rewrite dict_keys_fromkeys by done. unfold epoch_record.
            by rewrite Z.add_0_r.
          - apply map_ext. intros j. f_equal. lia. }
        subst w2 w1. unfold with_is_loading, with_info, keys_of in *. simpl.
        rewrite Hks, Hfs, Hdir, Hlist. done.
      * intros j Hj. rewrite <- (Hcomp (S j)) by lia. f_equal. lia.
      * intros j Hj. rewrite <- (Hpars (S j)) by lia. f_equal. lia.
      * rewrite <- Hlast. f_equal. lia.
    + reflexivity.
    + subst w1. unfold keys_of in *. simpl. rewrite Hks, Hfs, Hdir.
      apply readable_prefix; [exact Hc0|exact Hp0].
Qed.

(** *** Every directory has a first epoch that was not persisted *)

Lemma parse_format_02d (z : Z) : 0 <= z -> parse_02d (format_02d z) = Some z.
Proof.
  intros Hz. unfold parse_02d, format_02d.
  assert (exists u, Z.to_int z = Pos u /\ u <> Nil) as (u & Hu & Hnil).
  { destruct z as [|p|p]; [by exists (D0 Nil) | | lia].
    exists (Pos.to_uint p). split; [done|apply Unsigned.to_uint_nonnil]. }
  pose proof (DecimalZ.of_to z) as Hof. rewrite Hu in *.
  destruct (_ <? 2)%nat.
  - simpl NilZero.string_of_int.
    change ("0" +:+ NilZero.string_of_uint u) with (String "0" (NilZero.string_of_uint u)).
    unfold NilZero.int_of_string. simpl (Ascii.eqb _ _). cbv iota.
    unfold NilZero.uint_of_string. simpl NilEmpty.uint_of_string.
    replace (NilEmpty.uint_of_string (NilZero.string_of_uint u)) with (Some u).
    + simpl. f_equal. exact Hof.
    + symmetry. destruct u; try done; apply NilEmpty.usu.
  - rewrite NilZero.isi; [simpl; by f_equal| |done].
    intros [= ->]. done.
Qed.

Lemma format_02d_inj (z1 z2 : Z) :
  0 <= z1 -> 0 <= z2 -> format_02d z1 = format_02d z2 -> z1 = z2.
Proof.
  intros H1 H2 Heq. apply (f_equal parse_02d) in Heq.
  rewrite !parse_format_02d in Heq by done. congruence.
Qed.

Lemma startswith_sep_key (k s1 s2 : string) :
  startswith_sep (k +:+ "_" +:+ s1) = startswith_sep (k +:+ "_" +:+ s2).
Proof. by destruct k. Qed.

(** For a fixed directory and key, distinct epoch numbers give distinct paths. *)
Lemma epoch_path_inj_epoch (dir k : string) (e1 e2 : Z) :
  0 <= e1 -> 0 <= e2 -> epoch_path dir k e1 = epoch_path dir k e2 -> e1 = e2.
Proof.
  intros H1 H2. unfold epoch_path, os_path_join.
  rewrite (startswith_sep_key k (format_02d e1 +:+ ".json") (format_02d e2 +:+ ".json")).
  assert (forall s1 s2 : string,
            k +:+ "_" +:+ s1 +:+ ".json" = k +:+ "_" +:+ s2 +:+ ".json" -> s1 = s2)
    as Hcancel.
  { intros s1 s2 H. do 2 apply String.app_inj in H. by apply string_app_inv_tail in H. }
  destruct (startswith_sep _); [|destruct (_ || _)%bool]; intros H.
  - by apply format_02d_inj, Hcancel.
  - apply String.app_inj in H. by apply format_02d_inj, Hcancel.
  - do 2 apply String.app_inj in H. by apply format_02d_inj, Hcancel.
Qed.

(** The first number at which a boolean sequence is false. *)
Lemma first_false (f : nat -> bool) (n : nat) :
  f n = false -> exists k, f k = false /\ forall j, (j < k)%nat -> f j = true.
Proof.
  induction n as [n IH] using lt_wf_ind. intros Hn.
  destruct (decide (Forall (fun j => f j = true) (seq 0 n))) as [Hall|Hnot].
  - exists n. split; [done|]. intros j Hj.
    rewrite Forall_forall in Hall. apply Hall, elem_of_seq. lia.
  - apply not_Forall_Exists in Hnot; [|apply _].
    apply Exists_exists in Hnot as (j & Hj & Hfj). apply elem_of_seq in Hj.
    simpl in Hfj. apply (IH j); [lia|]. by destruct (f j).
Qed.

(** A finite directory cannot hold the file of a key for every epoch number. *)
Lemma some_epoch_missing (fs : gmap string file) (dir k : string) :
  exists j : nat, present fs dir (Z.of_nat j) k = false.
Proof.
  set (n := size fs).
  set (paths := (fun j : nat => epoch_path dir k (Z.of_nat j)) <$> seq 0 (S n)).
  destruct (decide (Forall (fun j : nat => present fs dir (Z.of_nat j) k = true)
                      (seq 0 (S n)))) as [Hall|Hnot].
  - exfalso.
    assert (NoDup paths) as Hnd.
    { apply NoDup_fmap_2_strong; [|apply NoDup_seq].
      intros j1 j2 _ _ Heq. apply epoch_path_inj_epoch in Heq; lia. }
    assert (list_to_set paths ⊆ dom fs) as Hsub.
    { intros p Hp. apply elem_of_list_to_set in Hp.
      apply list_elem_of_fmap in Hp as (j & -> & Hj).
      rewrite Forall_forall in Hall. specialize (Hall j Hj).
      unfold present in Hall. apply elem_of_dom.
      destruct (fs !! _); [eauto|done]. }
    apply subseteq_size in Hsub.
    rewrite size_list_to_set, size_dom in Hsub by done.
    subst paths n. rewrite length_fmap, length_seq in Hsub. lia.
  - apply not_Forall_Exists in Hnot; [|apply _].
    apply Exists_exists in Hnot as (j & _ & Hj). simpl in Hj.
    exists j. by destruct (present _ _ _ _).
Qed.

Lemma first_incomplete_epoch (fs : gmap string file) (dir : string) (ks : list string) :
  ks <> [] ->
  exists k : nat,
    epoch_complete fs dir ks (Z.of_nat k) = false
    /\ forall j, (j < k)%nat -> epoch_complete fs dir ks (Z.of_nat j) = true.
Proof.
  intros Hne. destruct ks as [|k0 ks]; [done|].
  destruct (some_epoch_missing fs dir k0) as [j Hj].
  apply (first_false (fun j => epoch_complete fs dir (k0 :: ks) (Z.of_nat j)) j).
  unfold epoch_complete. simpl. by rewrite Hj.
Qed.

Lemma all_json_floats_parsable (fs : gmap string file) (dir : string)
    (ks : list string) (epoch : Z) :
  all_json_floats fs -> epoch_parsable fs dir ks epoch = true.
Proof.
  intros Hall. unfold epoch_parsable. apply forallb_forall. intros k _.
  unfold parsable. destruct (fs !! _) as [f|] eqn:Hf; [|done].
  apply (map_Forall_lookup_1 _ _ _ _ Hall) in Hf. by destruct f.
Qed.

(** Without declared keys no epoch is ever found missing: the loop of
    [load] does not end, whatever the number of iterations. *)
Lemma load_loop_without_keys (fuel : nat) :
  forall (n : Z) (w : World),
    keys_of w = [] -> is_loading (self w) = true -> load_loop fuel n w = None.
Proof.
  induction fuel as [|fuel IH]; intros n w Hk Hl; simpl; [done|].
  rewrite new_epoch_loading by done.
  unfold load_epoch, bind, gets.
  change (keys_of (with_info _ w)) with (keys_of w). rewrite Hk. simpl.
  by apply IH.
Qed.

(** Construction when the first [k] epochs are on disk and epoch [k] is not. *)
Lemma construction_with_first_gap (k extra : nat) (meta : dict meta_info)
    (dir : string) (plotting : bool) (p : Z) (fs : gmap string file) :
  NoDup (dict_keys meta) ->
  (forall j, (j < k)%nat -> epoch_complete fs dir (dict_keys meta) (Z.of_nat j) = true) ->
  (forall j, (j <= k)%nat -> epoch_parsable fs dir (dict_keys meta) (Z.of_nat j) = true) ->
  epoch_complete fs dir (dict_keys meta) (Z.of_nat k) = false ->
  __init__ (S k + extra) meta dir plotting p fs
  = Some (Return tt,
          MkWorld
            (MkLogger meta dir
               (map (epoch_record fs dir (dict_keys meta)) (map Z.of_nat (seq 0 k)))
               plotting p 0 false)
            fs [] 0).
Proof.
  intros Hnd Hcomp Hpars Hlast. unfold __init__, load.
  rewrite (load_loop_resumes fs dir (dict_keys meta) k extra 0); try done.
  unfold with_is_loading, with_info. simpl. by rewrite map_map.
Qed.

(** C1, in the form the code satisfies.  For every directory whose epoch files hold JSON lists
    of floats, and at least one declared key: there is a first epoch [k] that
    lacks the file of some declared key, and construction returns, for
    every number of loop iterations above [k], with exactly the epochs
    [0 .. k-1] in [self.info], in order.  The record created for epoch [k]
    is deleted again: no open epoch is added, and nothing else of the
    state moved. *)
Theorem construction_loads_persisted_epochs (meta : dict meta_info)
    (dir : string) (plotting : bool) (p : Z) (fs : gmap string file) :
  meta <> [] ->
  NoDup (dict_keys meta) ->
  epoch_files_parsable fs dir (dict_keys meta) ->
  exists k : nat,
    epoch_complete fs dir (dict_keys meta) (Z.of_nat k) = false
    /\ (forall j, (j < k)%nat -> epoch_complete fs dir (dict_keys meta) (Z.of_nat j) = true)
    /\ forall extra,
         __init__ (S k + extra) meta dir plotting p fs
         = Some (Return tt,
                 MkWorld
                   (MkLogger meta dir
                      (map (epoch_record fs dir (dict_keys meta)) (map Z.of_nat (seq 0 k)))
                      plotting p 0 false)
                   fs [] 0).
Proof.
  intros Hne Hnd Hjson.
  destruct (first_incomplete_epoch fs dir (dict_keys meta)) as (k & Hlast & Hcomp).
  { by destruct meta. }
  exists k. split; [done|]. split; [done|]. intros extra.
  by apply construction_with_first_gap.
Qed.

Lemma example_files_json : all_json_floats example_files.
Proof.
  unfold all_json_floats, example_files.
  repeat (apply map_Forall_insert_2; [reflexivity|]). apply map_Forall_empty.
Qed.

Lemma construction_loads_persisted_epochs_witness :
  exists k : nat,
    epoch_complete example_files "logs" (dict_keys example_meta) (Z.of_nat k) = false
    /\ (forall j, (j < k)%nat ->
          epoch_complete example_files "logs" (dict_keys example_meta) (Z.of_nat j) = true)
    /\ forall extra,
         __init__ (S k + extra) example_meta "logs" true 2 example_files
         = Some (Return tt,
                 MkWorld
                   (MkLogger example_meta "logs"
                      (map (epoch_record example_files "logs" (dict_keys example_meta))
                           (map Z.of_nat (seq 0 k)))
                      true 2 0 false)
                   example_files [] 0).
Proof.
  apply (construction_loads_persisted_epochs example_meta "logs" true 2 example_files).
  - discriminate.
  - compute_done.
  - intros j. apply all_json_floats_parsable, example_files_json.
Defined.

(** X13.  With an empty [meta_info_dict] no file is ever looked for, so
    no epoch is ever found missing: construction does not return, whatever
    the directory and however many iterations the loop of [load] is
    given. *)
Lemma construction_without_keys (fuel : nat) (dir : string) (plotting : bool) (p : Z)
    (fs : gmap string file) :
  __init__ fuel [] dir plotting p fs = None.
Proof. unfold __init__, load. by apply load_loop_without_keys. Qed.

(** The records construction loads have exactly the declared keys. *)
Lemma constructed_keys_exact (meta : dict meta_info) (dir : string) (plotting : bool)
    (p : Z) (fs : gmap string file) (k : nat) :
  keys_exact
    (MkWorld
       (MkLogger meta dir
          (map (epoch_record fs dir (dict_keys meta)) (map Z.of_nat (seq 0 k)))
          plotting p 0 false)
       fs [] 0).
Proof.
  unfold keys_exact, keys_of. simpl. apply Forall_forall. intros e He.
  apply list_elem_of_fmap in He as (j & -> & _). apply dict_keys_map.
Qed.

(** Counterexample to C1 as the specification words it: on an empty
    directory construction returns with an empty [self.info], not with one
    open epoch. *)
Lemma construction_leaves_no_open_epoch :
  ~ resumes_with_open_epoch example_meta "logs" true 2 ∅ 0.
Proof.
  intros (fuel & w & Hinit & Hinfo).
  destruct fuel as [|fuel]; [discriminate|].
  vm_compute in Hinit. injection Hinit as <-. discriminate.
Qed.

Example construction_on_empty_directory :
  __init__ 1 example_meta "logs" true 2 ∅
  = Some (Return tt, MkWorld (MkLogger example_meta "logs" [] true 2 0 false) ∅ [] 0).
Proof. vm_compute. reflexivity. Qed.

(** ** [plot] *)

Lemma dict_get_elem {V} (k : string) (v : V) (d : dict V) :
  dict_get k d = Some v -> (k, v) ∈ d.
Proof.
  induction d as [|[k' v'] r IH]; simpl; [done|].
  destruct (String.eqb_spec k' k) as [->|_].
  - intros [= ->]. left.
  - intros H. right. by apply IH.
Qed.

Lemma dict_elem_get {V} (k : string) (v : V) (d : dict V) :
  NoDup (dict_keys d) -> (k, v) ∈ d -> dict_get k d = Some v.
Proof.
  induction d as [|[k' v'] r IH]; simpl; [inversion 2|].
  intros [Hk' Hnd]%NoDup_cons [[= -> ->]|Hin]%elem_of_cons.
  - by rewrite String.eqb_refl.
  - destruct (String.eqb_spec k' k) as [->|_]; [|by apply IH].
    elim Hk'. apply (list_elem_of_fmap_2 fst) in Hin. exact Hin.
Qed.

Lemma dict_get_map {V} (f : string -> V) (ks : list string) (k : string) :
  k ∈ ks -> dict_get k (map (fun k => (k, f k)) ks) = Some (f k).
Proof.
  induction ks as [|k0 l IH]; [inversion 1|]. intros Hk. simpl.
  destruct (String.eqb_spec k0 k) as [->|Hne]; [done|].
  apply IH. apply elem_of_cons in Hk. destruct Hk; congruence.
Qed.

Lemma same_store_refl (w : World) : same_store w w.
Proof. by repeat split. Qed.

Lemma same_store_trans (w1 w2 w3 : World) :
  same_store w1 w2 -> same_store w2 w3 -> same_store w1 w3.
Proof.
  intros (Hs1 & Ho1 & Hf1) (Hs2 & Ho2 & Hf2). repeat split; congruence.
Qed.

Lemma extend_items_state (items : epoch_info) :
  forall acc w, snd (extend_items items acc w) = w.
Proof.
  induction items as [|[k v] r IH]; intros acc w; simpl; [done|].
  unfold_monad. destruct (dict_get k acc); simpl; [apply IH|done].
Qed.

Lemma gather_state (epochs : list epoch_info) :
  forall acc w, snd (gather epochs acc w) = w.
Proof.
  induction epochs as [|e r IH]; intros acc w; simpl; [done|].
  unfold bind. pose proof (extend_items_state e acc w) as H.
  destruct (extend_items e acc w) as [[acc'| |] w1]; simpl in *; subst; [apply IH|done|done].
Qed.

Lemma extend_items_ok (items : epoch_info) :
  forall acc w,
    (forall k, k ∈ dict_keys items -> k ∈ dict_keys acc) ->
    exists acc', extend_items items acc w = (Return acc', w)
                 /\ dict_keys acc' = dict_keys acc.
Proof.
  induction items as [|[k v] r IH]; intros acc w Hin; simpl.
  - by exists acc.
  - unfold_monad.
    destruct (proj2 (dict_get_is_Some k acc) (Hin k ltac:(left))) as [old Hold].
    rewrite Hold. simpl.
    destruct (IH (dict_set k (old ++ v) acc) w) as (acc' & Hacc' & Hkeys).
    + intros k' Hk'. rewrite dict_keys_set_present by (apply Hin; left).
      apply Hin. by right.
    + exists acc'. split; [done|]. rewrite Hkeys.
      apply dict_keys_set_present, Hin. left.
Qed.

Lemma gather_ok (epochs : list epoch_info) :
  forall acc w,
    Forall (fun e : epoch_info => dict_keys e = dict_keys acc) epochs ->
    exists acc', gather epochs acc w = (Return acc', w)
                 /\ dict_keys acc' = dict_keys acc.
Proof.
  induction epochs as [|e r IH]; intros acc w Hall; simpl.
  - by exists acc.
  - apply Forall_cons in Hall as [He Hr]. unfold bind.
    destruct (extend_items_ok e acc w) as (acc1 & -> & Hk1); [by rewrite He|].
    destruct (IH acc1 w) as (acc' & Hacc' & Hk'); [by rewrite Hk1|].
    exists acc'. split; [done|congruence].
Qed.

(** However [render] ends, it wrote the chart of its key or nothing. *)
Lemma render_state (kv : string * list float) (w : World) :
  snd (render kv w) = w
  \/ exists scale,
       snd (render kv w)
       = with_files (insert (chart_path (log_dir_path (self w)) (fst kv))
                            (Chart (fst kv) scale (snd kv))) w.
Proof.
  destruct kv as [k v]. unfold render, plt_yscale, plt_savefig, unmodelled. unfold_monad.
  destruct (dict_get k _) as [m|]; simpl; [|by left].
  repeat case_bool_decide; simpl; try (by left);
    destruct (plain_title k); simpl; try (by left); right; eauto.
Qed.

(** A chart that is drawable is drawn. *)
Lemma render_drawable (k : string) (v : list float) (m : meta_info) (w : World) :
  dict_get k (meta_info_dict (self w)) = Some m ->
  chart_drawable (k, m) = true ->
  render (k, v) w
  = (Return tt,
     with_files (insert (chart_path (log_dir_path (self w)) k)
                        (Chart k (default "log" (yscale m)) v)) w).
Proof.
  intros Hm [Hd Hs]%andb_prop. simpl in Hd, Hs.
  apply bool_decide_eq_true in Hs.
  unfold render, plt_yscale, plt_savefig. unfold_monad. rewrite Hm. simpl.
  assert (match yscale m with Some y => y | None => "log" end = default "log" (yscale m))
    as -> by (by destruct (yscale m)).
  rewrite bool_decide_eq_true_2 by done. simpl. by rewrite Hd.
Qed.

Lemma charts_drawable_get (w : World) (k : string) (m : meta_info) :
  charts_drawable w -> dict_get k (meta_info_dict (self w)) = Some m ->
  chart_drawable (k, m) = true.
Proof.
  unfold charts_drawable. rewrite Forall_forall. intros Hall Hm.
  by apply Hall, dict_get_elem.
Qed.

Lemma charts_drawable_self (w w' : World) :
  self w' = self w -> charts_drawable w -> charts_drawable w'.
Proof. unfold charts_drawable. by intros ->. Qed.

Lemma render_effect (w0 : World) (c : nat) (kv : string * list float) (w : World) :
  same_store w0 w /\ plot_calls w = c ->
  same_store w0 (snd (render kv w)) /\ plot_calls (snd (render kv w)) = c.
Proof.
  intros [Hsame Hc].
  destruct (render_state kv w) as [-> | (scale & ->)]; [done|].
  split; [|done]. eapply same_store_trans; [exact Hsame|].
  repeat split. intros k' epoch. simpl.
  destruct Hsame as (-> & _ & _).
  apply lookup_insert_ne, chart_path_not_epoch_path.
Qed.

(** Whatever its outcome, [plot] counts one call and leaves the logger,
    standard output and the epoch files alone. *)
Lemma plot_effect (w : World) :
  same_store w (snd (plot w)) /\ plot_calls (snd (plot w)) = S (plot_calls w).
Proof.
  set (P := fun w' => same_store w w' /\ plot_calls w' = S (plot_calls w)).
  change (P (snd (plot w))).
  assert (P (with_plot_call w)) as HP by (split; [by repeat split|done]).
  unfold plot, bind, modify, gets.
  pose proof (gather_state (info (self (with_plot_call w)))
                (dict_fromkeys (dict_keys (meta_info_dict (self (with_plot_call w)))) [])
                (with_plot_call w)) as Hg.
  destruct (gather _ _ _) as [[series| |] w1]; simpl in Hg; subst w1; [|done|done].
  apply (for_each_invariant P); [|done].
  intros kv w' _. apply render_effect.
Qed.

Lemma render_all_return (series : dict (list float)) :
  forall w,
    charts_drawable w ->
    (forall k, k ∈ dict_keys series -> k ∈ keys_of w) ->
    fst (for_each series render w) = Return tt.
Proof.
  induction series as [|[k v] r IH]; intros w Hdr Hin; [done|].
  destruct (proj2 (dict_get_is_Some k (meta_info_dict (self w))) (Hin k ltac:(left)))
    as [m Hm].
  cbn [for_each]. unfold bind.
  rewrite (render_drawable k v m w Hm) by (by eapply charts_drawable_get).
  apply IH; [done|]. intros k' Hk'. apply Hin. by right.
Qed.

(** With distinct declared keys, records that have exactly these keys and
    charts that are drawable, [plot] returns. *)
Lemma plot_returns (w : World) :
  keys_distinct w -> keys_exact w -> charts_drawable w -> fst (plot w) = Return tt.
Proof.
  intros Hnd Hex Hdr. unfold plot, bind, modify, gets.
  destruct (gather_ok (info (self (with_plot_call w)))
              (dict_fromkeys (dict_keys (meta_info_dict (self (with_plot_call w)))) [])
              (with_plot_call w)) as (series & -> & Hkeys).
  - simpl. unfold keys_exact, keys_of in Hex.
    by rewrite dict_keys_fromkeys.
  - apply render_all_return; [done|]. intros k. rewrite Hkeys.
    by rewrite dict_keys_fromkeys.
Qed.

Lemma plot_spec (w : World) :
  keys_distinct w -> keys_exact w -> charts_drawable w ->
  exists w', plot w = (Return tt, w') /\ same_store w w'
             /\ plot_calls w' = S (plot_calls w).
Proof.
  intros Hnd Hex Hdr. pose proof (plot_returns w Hnd Hex Hdr) as Hr.
  pose proof (plot_effect w) as [Hs Hc].
  destruct (plot w) as [r w']. simpl in *. subst r. eauto.
Qed.

(** ** [new_epoch] *)

Lemma new_epoch_spec (w : World) :
  keys_distinct w -> keys_exact w -> charts_drawable w ->
  exists w1,
    new_epoch w
    = (Return tt, with_info (fun l => l ++ [map (fun k => (k, [])) (keys_of w)]) w1)
    /\ same_store w w1
    /\ plot_calls w1
       = if (negb (is_loading (self w)) && periodic_plot (self w))%bool
         then S (plot_calls w) else plot_calls w.
Proof.
  intros Hnd Hex Hdr. unfold new_epoch. unfold_monad.
  destruct (negb _ && _)%bool.
  - destruct (plot_spec w Hnd Hex Hdr) as (w1 & -> & Hs & Hc).
    exists w1. split; [|done]. destruct Hs as (Hs & _). simpl. rewrite Hs.
    fold (keys_of w). by rewrite dict_fromkeys_distinct.
  - exists w. split; [|split; [apply same_store_refl|done]].
    simpl. fold (keys_of w). by rewrite dict_fromkeys_distinct.
Qed.

(** ** [log_info] *)

Lemma log_key_valid (itl : dict pyval) (k : string) (f : float) (w : World) init e old :
  dict_get k itl = Some (PyFloat f) ->
  info (self w) = init ++ [e] ->
  dict_get k e = Some old ->
  log_key itl k w = (Return tt, with_info (fun _ => init ++ [dict_set k (old ++ [f]) e]) w).
Proof.
  intros Hv Hinfo Hold. unfold log_key. unfold_monad. rewrite Hv. simpl.
  rewrite Hinfo, list_index_last, Hold. simpl.
  unfold with_info. simpl. by rewrite Hinfo, list_assign_last.
Qed.

Lemma log_key_invalid (itl : dict pyval) (k : string) (w : World) :
  valid_value itl k = false ->
  log_key itl k w = (Raise KeyError, w) \/ log_key itl k w = (Raise AssertionError, w).
Proof.
  unfold valid_value, log_key. unfold_monad.
  destruct (dict_get k itl) as [[]|]; simpl; try done; auto.
Qed.

Lemma log_keys_valid (itl : dict pyval) (ks : list string) :
  forall (w : World) init e,
    NoDup ks ->
    info (self w) = init ++ [e] ->
    forallb (valid_value itl) ks = true ->
    (forall k, k ∈ ks -> k ∈ dict_keys e) ->
    exists e',
      for_each ks (log_key itl) w = (Return tt, with_info (fun _ => init ++ [e']) w)
      /\ dict_keys e' = dict_keys e
      /\ (forall k f, k ∈ ks -> dict_get k itl = Some (PyFloat f) ->
            exists old, dict_get k e = Some old /\ dict_get k e' = Some (old ++ [f]))
      /\ (forall k, k ∉ ks -> dict_get k e' = dict_get k e).
Proof.
  induction ks as [|k0 ks IH]; intros w init e Hnd Hinfo Hvalid Hin; simpl.
  - exists e. repeat split; try done.
    + unfold ret, with_info. rewrite <- Hinfo. by destruct w as [[]].
    + intros k f Hk. inversion Hk.
  - apply NoDup_cons in Hnd as [Hk0 Hnd]. simpl in Hvalid.
    apply andb_prop in Hvalid as [Hv0 Hvalid].
    destruct (proj2 (dict_get_is_Some k0 e) (Hin k0 ltac:(left))) as [old0 Hold0].
    unfold valid_value in Hv0.
    destruct (dict_get k0 itl) as [[f0| | | |]|] eqn:Hitl; try done.
    unfold bind at 1.
    rewrite (log_key_valid itl k0 f0 w init e old0) by done.
    destruct (IH (with_info (fun _ => init ++ [dict_set k0 (old0 ++ [f0]) e]) w)
                init (dict_set k0 (old0 ++ [f0]) e))
      as (e' & Hrun & Hkeys & Hget & Hother); try done.
    { intros k Hk. rewrite dict_keys_set_present by (apply Hin; left).
      apply Hin. by right. }
    exists e'. split; [exact Hrun|]. split; [|split].
    + rewrite Hkeys. apply dict_keys_set_present, Hin. left.
    + intros k f [->|Hk]%elem_of_cons Hf.
      * exists old0. split; [done|]. rewrite Hother by done.
        rewrite dict_get_set_eq. congruence.
      * destruct (Hget k f Hk Hf) as (old & Hold & He').
        exists old. split; [|done].
        rewrite dict_get_set_ne in Hold; [done|]. intros ->. done.
    + intros k [Hne Hk]%not_elem_of_cons. rewrite Hother by done.
      by apply dict_get_set_ne.
Qed.

Lemma keys_exact_snoc (w : World) init e e' :
  keys_exact w -> info (self w) = init ++ [e] -> dict_keys e' = dict_keys e ->
  Forall (fun e0 : epoch_info => dict_keys e0 = keys_of w) (init ++ [e']).
Proof.
  unfold keys_exact. intros Hex Hinfo Hkeys. rewrite Hinfo in Hex.
  apply Forall_app in Hex as [Hinit He]. apply Forall_app. split; [done|].
  rewrite Forall_singleton in He. apply Forall_singleton. congruence.
Qed.

Lemma keys_exact_last (w : World) init e :
  keys_exact w -> info (self w) = init ++ [e] -> dict_keys e = keys_of w.
Proof.
  unfold keys_exact. intros Hex Hinfo. rewrite Hinfo in Hex.
  apply Forall_app in Hex as [_ He]. by rewrite Forall_singleton in He.
Qed.

(** A [log_info] call with a float for every declared key, in a store with
    an open epoch: the call returns; the open epoch has each declared key's
    float appended; the counter advanced; [plot] ran once if the counter
    came back to zero. *)
Lemma log_info_spec (itl : dict pyval) (w : World) init e :
  keys_distinct w -> keys_exact w -> period_ok w ->
  (plots_now (self w) = true -> charts_drawable w) ->
  info (self w) = init ++ [e] ->
  valid_input itl (keys_of w) = true ->
  exists w' e',
    log_info itl w = (Return tt, w')
    /\ same_store (with_plot_counter (next_counter (self w))
                     (with_info (fun _ => init ++ [e']) w)) w'
    /\ plot_calls w' = (if plots_now (self w) then S (plot_calls w) else plot_calls w)
    /\ dict_keys e' = keys_of w
    /\ (forall k f, k ∈ keys_of w -> dict_get k itl = Some (PyFloat f) ->
          exists old, dict_get k e = Some old /\ dict_get k e' = Some (old ++ [f])).
Proof.
  intros Hnd Hex Hper Hdr Hinfo Hvalid.
  pose proof (keys_exact_last w init e Hex Hinfo) as Hke.
  destruct (log_keys_valid itl (keys_of w) w init e) as (e' & Hrun & Hkeys & Hget & _);
    try done.
  { intros k. by rewrite Hke. }
  unfold log_info, bind at 1 2, gets. rewrite Hrun.
  set (w1 := with_info (fun _ => init ++ [e']) w).
  assert (keys_exact w1) as Hex1.
  { unfold keys_exact. subst w1. simpl. by apply (keys_exact_snoc w init e). }
  unfold bind at 1. unfold plots_now, next_counter. unfold period_ok in Hper.
  change (periodic_plot (self w1)) with (periodic_plot (self w)).
  change (period (self w1)) with (period (self w)).
  change (plot_counter (self w1)) with (plot_counter (self w)).
  destruct (periodic_plot (self w)) eqn:Hpp; simpl.
  - destruct (Z.eqb_spec (period (self w)) 0) as [H0|_]; [by elim Hper|].
    unfold bind, modify.
    set (w2 := with_plot_counter _ w1).
    destruct (Z.eqb_spec ((plot_counter (self w) + 1) mod period (self w)) 0) as [Hc|Hc].
    + destruct (plot_spec w2) as (w3 & -> & Hs & Hpc); [done|done| |].
      { apply Hdr. unfold plots_now, next_counter. rewrite Hpp. simpl.
        by apply Z.eqb_eq. }
      exists w3, e'. repeat split; try done; try apply Hs. congruence.
    + exists w2, e'. repeat split; try done. congruence.
  - exists w1, e'. repeat split; try done. congruence.
Qed.

(** A [log_info] call whose mapping lacks a declared key, or gives one a
    value that is not a float, raises at the first such key. *)
Lemma log_info_invalid (itl : dict pyval) (w : World) init e :
  keys_distinct w -> keys_exact w ->
  info (self w) = init ++ [e] ->
  valid_input itl (keys_of w) = false ->
  exists err w1, log_info itl w = (Raise err, w1)
                 /\ (err = KeyError \/ err = AssertionError).
Proof.
  intros Hnd Hex Hinfo (pre & k & post & Hkeys & Hpre & Hk)%forallb_false_split.
  pose proof (keys_exact_last w init e Hex Hinfo) as Hke.
  unfold keys_distinct in Hnd. rewrite Hkeys in Hnd.
  destruct (log_keys_valid itl pre w init e) as (e' & Hrun & _); try done.
  { by apply NoDup_app in Hnd as [? _]. }
  { intros k' Hk'. rewrite Hke, Hkeys. apply elem_of_app. by left. }
  unfold log_info, bind at 1 2, gets. rewrite Hkeys, for_each_app.
  unfold bind at 1 2. rewrite Hrun. simpl. unfold bind.
  destruct (log_key_invalid itl k (with_info (fun _ => init ++ [e']) w) Hk) as [-> | ->];
    eauto.
Qed.

(** With plotting enabled and a period of zero, a [log_info] call with a
    valid mapping appends and then raises [ZeroDivisionError]. *)
Lemma log_info_period_zero (itl : dict pyval) (w : World) init e :
  keys_distinct w -> keys_exact w ->
  info (self w) = init ++ [e] ->
  valid_input itl (keys_of w) = true ->
  periodic_plot (self w) = true -> period (self w) = 0 ->
  fst (log_info itl w) = Raise ZeroDivisionError.
Proof.
  intros Hnd Hex Hinfo Hvalid Hpp Hp.
  pose proof (keys_exact_last w init e Hex Hinfo) as Hke.
  destruct (log_keys_valid itl (keys_of w) w init e) as (e' & Hrun & _); try done.
  { intros k. by rewrite Hke. }
  unfold log_info, bind at 1 2, gets. rewrite Hrun.
  unfold bind. simpl. by rewrite Hpp, Hp.
Qed.

(** C4. In a store with an open epoch: [log_info] raises [KeyError] or
    [AssertionError] when the mapping lacks a declared key or gives it a
    value that is not a float; when it gives a float for every declared
    key, the call returns [None] and the open epoch has, for each declared
    key, that float appended to the key's sequence.  (Where the call is
    one that ends with the periodic [plot], that it returns is stated for
    charts that are drawable.) *)
Theorem log_info_validates_and_appends (itl : dict pyval) (w : World) init e :
  keys_distinct w -> keys_exact w -> period_ok w ->
  info (self w) = init ++ [e] ->
  (valid_input itl (keys_of w) = false ->
   fst (log_info itl w) = Raise KeyError \/ fst (log_info itl w) = Raise AssertionError)
  /\ (valid_input itl (keys_of w) = true ->
      (plots_now (self w) = true -> charts_drawable w) ->
      exists w' e',
        log_info itl w = (Return tt, w')
        /\ info (self w') = init ++ [e']
        /\ dict_keys e' = keys_of w
        /\ (forall k f, k ∈ keys_of w -> dict_get k itl = Some (PyFloat f) ->
              exists old, dict_get k e = Some old /\ dict_get k e' = Some (old ++ [f]))).
Proof.
  intros Hnd Hex Hper Hinfo. split.
  - intros Hinvalid.
    destruct (log_info_invalid itl w init e) as (err & w1 & -> & [-> | ->]); auto.
  - intros Hvalid Hdr.
    destruct (log_info_spec itl w init e) as (w' & e' & Hrun & Hs & _ & Hkeys & Hget);
      try done.
    exists w', e'. repeat split; try done.
    destruct Hs as (-> & _). done.
Qed.

Lemma log_info_validates_and_appends_witness :
  (fst (log_info example_values_missing example_world) = Raise KeyError
   \/ fst (log_info example_values_missing example_world) = Raise AssertionError)
  /\ (exists w' e',
        log_info example_values example_world = (Return tt, w')
        /\ info (self w') = [] ++ [e']
        /\ dict_keys e' = keys_of example_world
        /\ (forall k f, k ∈ keys_of example_world ->
              dict_get k example_values = Some (PyFloat f) ->
              exists old, dict_get k [("loss", []); ("acc", [])] = Some old
                          /\ dict_get k e' = Some (old ++ [f]))).
Proof.
  split.
  - apply (log_info_validates_and_appends example_values_missing example_world
             [] [("loss", []); ("acc", [])]);
      [unfold keys_distinct; compute_done | unfold keys_exact; by repeat constructor
      | discriminate | reflexivity | reflexivity].
  - apply (log_info_validates_and_appends example_values example_world
             [] [("loss", []); ("acc", [])]);
      [unfold keys_distinct; compute_done | unfold keys_exact; by repeat constructor
      | discriminate | reflexivity | reflexivity
      | intros _; unfold charts_drawable; by repeat constructor].
Defined.

(** ** The two invariants *)

Lemma keys_exact_self (w w' : World) : self w' = self w -> keys_exact w -> keys_exact w'.
Proof. unfold keys_exact, keys_of. by intros ->. Qed.

Lemma keys_exact_assign (w : World) (i : Z) (e e' : epoch_info) :
  keys_exact w -> list_index (info (self w)) i = Some e ->
  dict_keys e' = dict_keys e ->
  keys_exact (with_info (fun l => list_assign l i e') w).
Proof.
  unfold keys_exact. intros Hex Hi Hkeys. simpl.
  change (keys_of (with_info _ w)) with (keys_of w).
  assert (dict_keys e' = keys_of w) as He'.
  { rewrite Hkeys. apply list_index_elem in Hi.
    rewrite Forall_forall in Hex. by apply Hex. }
  unfold list_assign. destruct (0 <=? i); [by apply Forall_insert|].
  destruct (_ <=? i); [by apply Forall_insert|done].
Qed.

Lemma log_key_keys_exact (itl : dict pyval) (k : string) (w : World) :
  keys_exact w -> keys_exact (snd (log_key itl k w)).
Proof.
  intros Hex. unfold log_key. unfold_monad.
  destruct (dict_get k itl) as [[f| | | |]|]; simpl; try done.
  destruct (list_index _ _) as [e|] eqn:He; simpl; [|done].
  destruct (dict_get k e) as [old|] eqn:Hold; simpl; [|done].
  eapply keys_exact_assign; [done|exact He|].
  apply dict_keys_set_present, dict_get_is_Some. eauto.
Qed.

Lemma load_key_keys_exact (epoch : Z) (k : string) (w : World) :
  k ∈ keys_of w -> keys_exact w -> keys_exact (snd (load_key epoch k w)).
Proof.
  intros Hk Hex. unfold load_key. unfold_monad. simpl.
  destruct (files w !! _) as [[v| | |]|]; simpl; try done.
  destruct (list_index _ _) as [e|] eqn:He; simpl; [|done].
  eapply keys_exact_assign; [done|exact He|].
  apply dict_keys_set_present.
  pose proof (list_index_elem _ _ _ He) as Hin.
  unfold keys_exact in Hex. rewrite Forall_forall in Hex. by rewrite (Hex e Hin).
Qed.

(** [load_epoch] keeps the key sets, however it ends. *)
Lemma load_epoch_keys_exact (epoch : Z) (w : World) :
  keys_exact w -> keys_exact (snd (load_epoch epoch w)).
Proof.
  intros Hex. unfold load_epoch, bind, gets.
  apply (for_each_invariant (fun w' => keys_exact w' /\ keys_of w' = keys_of w)
           (keys_of w) (load_key epoch)); [|done].
  intros k w' Hk [Hex' Hkeys]. split.
  - apply load_key_keys_exact; [by rewrite Hkeys|done].
  - rewrite <- Hkeys. unfold load_key. unfold_monad. simpl.
    destruct (files w' !! _) as [[v| | |]|]; simpl; try done.
    by destruct (list_index _ _).
Qed.

(** [log_info] keeps the key sets, however it ends. *)
Lemma log_info_keys_exact (itl : dict pyval) (w : World) :
  keys_exact w -> keys_exact (snd (log_info itl w)).
Proof.
  intros Hex. unfold log_info, bind at 1 2, gets.
  pose proof (for_each_invariant (fun w' => keys_exact w')
                (keys_of w) (log_key itl)) as Hloop.
  specialize (Hloop (fun k w' _ H => log_key_keys_exact itl k w' H) w Hex).
  destruct (for_each _ _ w) as [[[]| |] w1]; simpl in Hloop; [|done|done].
  unfold bind at 1.
  destruct (periodic_plot (self w1)); [|done].
  destruct (period (self w1) =? 0); [done|].
  unfold bind, modify.
  destruct (_ =? 0); [|done].
  eapply keys_exact_self; [apply plot_effect|done].
Qed.

Lemma save_key_self (reread : float -> float) (epoch : Z) (k : string) (w : World) :
  self (snd (save_key reread epoch k w)) = self w.
Proof.
  unfold save_key. unfold_monad. simpl.
  destruct (list_index _ _) as [e|]; simpl; [|done].
  by destruct (dict_get k e).
Qed.

(** [save_epoch] does not touch the logger, however it ends. *)
Lemma save_epoch_self (reread : float -> float) (epoch : Z) (w : World) :
  self (snd (save_epoch reread epoch w)) = self w.
Proof.
  unfold save_epoch, bind, gets.
  apply (for_each_invariant (fun w' => self w' = self w)); [|done].
  intros k w' _ <-. apply save_key_self.
Qed.

Lemma log_key_no_epoch (itl : dict pyval) (k : string) (w : World) :
  info (self w) = [] -> info (self (snd (log_key itl k w))) = [].
Proof.
  intros Hnil. unfold log_key. unfold_monad.
  destruct (dict_get k itl) as [[f| | | |]|]; simpl; try done.
  by rewrite Hnil, list_index_nil.
Qed.

Lemma log_info_no_epoch (itl : dict pyval) (w : World) :
  info (self w) = [] -> info (self (snd (log_info itl w))) = [].
Proof.
  intros Hnil. unfold log_info, bind at 1 2, gets.
  pose proof (for_each_invariant (fun w' => info (self w') = [])
                (keys_of w) (log_key itl)
                (fun k w' _ H => log_key_no_epoch itl k w' H) w Hnil) as Hloop.
  destruct (for_each _ _ w) as [[[]| |] w1]; simpl in Hloop; [|done|done].
  unfold bind at 1.
  destruct (periodic_plot (self w1)); [|done].
  destruct (period (self w1) =? 0); [done|].
  unfold bind, modify.
  destruct (_ =? 0); [|done].
  destruct (plot_effect (with_plot_counter
              ((plot_counter (self w1) + 1) mod period (self w1)) w1)) as [(-> & _) _].
  done.
Qed.

(** Whatever follows the loop of [log_info] (the counter, [plot]), the
    records are those the loop left. *)
Lemma log_info_appends (itl : dict pyval) (w : World) init e :
  keys_distinct w -> keys_exact w ->
  info (self w) = init ++ [e] ->
  valid_input itl (keys_of w) = true ->
  exists e',
    info (self (snd (log_info itl w))) = init ++ [e']
    /\ dict_keys e' = keys_of w
    /\ (forall k f, k ∈ keys_of w -> dict_get k itl = Some (PyFloat f) ->
          exists old, dict_get k e = Some old /\ dict_get k e' = Some (old ++ [f])).
Proof.
  intros Hnd Hex Hinfo Hvalid.
  pose proof (keys_exact_last w init e Hex Hinfo) as Hke.
  destruct (log_keys_valid itl (keys_of w) w init e) as (e' & Hrun & Hkeys & Hget & _);
    try done.
  { intros k. by rewrite Hke. }
  exists e'. split; [|split; [congruence|done]].
  unfold log_info, bind at 1 2, gets. rewrite Hrun.
  set (w1 := with_info _ w).
  assert (info (self w1) = init ++ [e']) as Hw1 by done.
  unfold bind at 1.
  destruct (periodic_plot (self w1)); [|done].
  destruct (period (self w1) =? 0); [done|].
  unfold bind, modify.
  destruct (_ =? 0); [|done].
  destruct (plot_effect (with_plot_counter
              ((plot_counter (self w1) + 1) mod period (self w1)) w1)) as [(-> & _) _].
  done.
Qed.

(** A [log_info] call that returns adds one value to every sequence of
    the open epoch: the sequences have one length after it exactly when
    they had one length before it. *)
Lemma log_info_same_length (itl : dict pyval) (w : World) :
  keys_distinct w -> keys_exact w ->
  fst (log_info itl w) = Return tt ->
  (open_same_length w <-> open_same_length (snd (log_info itl w))).
Proof.
  intros Hnd Hex Hret.
  destruct (info (self w)) as [|e0 l0] eqn:Hinfo.
  { unfold open_same_length. by rewrite log_info_no_epoch, Hinfo, list_index_nil. }
  destruct (nonempty_snoc (e0 :: l0)) as (init & e & Hsnoc); [done|].
  rewrite Hsnoc in Hinfo. clear e0 l0 Hsnoc.
  destruct (valid_input itl (keys_of w)) eqn:Hvalid.
  2:{ destruct (log_info_invalid itl w init e) as (err & w1 & Hrun & _); try done.
      rewrite Hrun in Hret. discriminate. }
  pose proof (keys_exact_last w init e Hex Hinfo) as Hke.
  destruct (log_info_appends itl w init e) as (e' & Hinfo' & Hkeys & Hget); try done.
  unfold open_same_length. rewrite Hinfo', Hinfo, !list_index_last.
  assert (forall k, k ∈ keys_of w ->
            exists f old, dict_get k e = Some old /\ dict_get k e' = Some (old ++ [f]))
    as Hstep.
  { intros k Hk. pose proof (forallb_elem _ _ k Hvalid Hk) as Hv. unfold valid_value in Hv.
    destruct (dict_get k itl) as [[f| | | |]|] eqn:Hitl; try done.
    destruct (Hget k f Hk Hitl) as (old & Hold & He'). eauto. }
  split; intros [n Hn]; rewrite Forall_forall in Hn.
  - exists (S n). apply Forall_forall. intros [k v'] Hin. simpl.
    assert (k ∈ keys_of w) as Hk.
    { rewrite <- Hkeys. by apply (list_elem_of_fmap_2 fst) in Hin. }
    destruct (Hstep k Hk) as (f & old & Hold & He').
    rewrite (dict_elem_get k v' e') in He'; [|by rewrite Hkeys|done].
    injection He' as ->. rewrite length_app. simpl.
    pose proof (Hn (k, old) (dict_get_elem k old e Hold)) as Hlen. simpl in Hlen. lia.
  - exists (pred n). apply Forall_forall. intros [k old] Hin. simpl.
    assert (k ∈ keys_of w) as Hk.
    { rewrite <- Hke. by apply (list_elem_of_fmap_2 fst) in Hin. }
    destruct (Hstep k Hk) as (f & old0 & Hold & He').
    rewrite (dict_elem_get k old e) in Hold; [|by rewrite Hke|done].
    injection Hold as <-.
    pose proof (Hn (k, old ++ [f]) (dict_get_elem k _ e' He')) as Hlen. simpl in Hlen.
    rewrite length_app in Hlen. simpl in Hlen. lia.
Qed.

(** However [new_epoch] ends, it appended one record of empty sequences
    or left the logger as it was. *)
Lemma new_epoch_outcome (w : World) :
  (fst (new_epoch w) = Return tt
   /\ self (snd (new_epoch w))
      = self (with_info (fun l => l ++ [dict_fromkeys (keys_of w) []]) w))
  \/ (fst (new_epoch w) <> Return tt /\ self (snd (new_epoch w)) = self w).
Proof.
  assert (forall r w', new_epoch w = (r, w') ->
            (r = Return tt
             /\ self w' = self (with_info (fun l => l ++ [dict_fromkeys (keys_of w) []]) w))
            \/ (r <> Return tt /\ self w' = self w)) as H.
  { intros r w'. unfold new_epoch. unfold_monad.
    destruct (negb _ && _)%bool.
    - destruct (plot_effect w) as [(Hself & _) _].
      destruct (plot w) as [[[]| |] w1]; simpl in Hself; intros [= <- <-].
      + left. split; [done|]. simpl. by rewrite Hself.
      + by right.
      + by right.
    - intros [= <- <-]. by left. }
  destruct (new_epoch w) as [r w'] eqn:E. simpl. by apply H.
Qed.

Lemma example_world_keys_distinct : keys_distinct example_world.
Proof. unfold keys_distinct. compute_done. Qed.

Lemma example_world_keys_exact : keys_exact example_world.
Proof. unfold keys_exact. by repeat constructor. Qed.

Lemma example_world_same_length : open_same_length example_world.
Proof. exists 0%nat. by repeat constructor. Qed.

(** C3, in the form the code satisfies.  In a store whose declared keys
    are distinct and whose records have exactly the declared keys:
    - the key sets are kept by [new_epoch], [log_info] and [load_epoch],
      however the call ends; [plot] and [save_epoch] leave the logger as it
      is;
    - [new_epoch], when it returns, leaves an open epoch that maps every
      declared key to the empty sequence, so the sequences have one
      length; it returns when the charts are drawable;
    - a [log_info] call that returns leaves the sequences of the open
      epoch at one length exactly when they had one length before it:
      it keeps equal lengths and does not restore them. *)
Theorem key_completeness_invariant (reread : float -> float) (w : World) :
  keys_distinct w -> keys_exact w ->
  (keys_exact (snd (new_epoch w))
   /\ (fst (new_epoch w) = Return tt ->
       list_index (info (self (snd (new_epoch w)))) (-1)
       = Some (map (fun k => (k, [])) (keys_of w))
       /\ open_same_length (snd (new_epoch w)))
   /\ (charts_drawable w -> fst (new_epoch w) = Return tt))
  /\ (forall itl,
        keys_exact (snd (log_info itl w))
        /\ (fst (log_info itl w) = Return tt ->
            (open_same_length w <-> open_same_length (snd (log_info itl w)))))
  /\ (forall epoch,
        keys_exact (snd (load_epoch epoch w))
        /\ self (snd (save_epoch reread epoch w)) = self w)
  /\ self (snd (plot w)) = self w.
Proof.
  intros Hnd Hex. split; [|split; [|split]].
  - assert (forall w', self w' = self (with_info (fun l => l ++ [dict_fromkeys (keys_of w) []]) w) ->
              list_index (info (self w')) (-1) = Some (map (fun k => (k, [])) (keys_of w))
              /\ keys_exact w' /\ open_same_length w') as Hnew.
    { intros w' Hself. unfold keys_exact, open_same_length, keys_of. rewrite Hself. simpl.
      fold (keys_of w). rewrite dict_fromkeys_distinct by done.
      rewrite list_index_last. split; [done|]. split.
      - apply Forall_app. split; [done|]. apply Forall_singleton.
        apply (dict_keys_map (fun _ => [])).
      - exists 0%nat. apply Forall_forall. intros [k v] Hin.
        apply list_elem_of_fmap in Hin as (k' & [= -> ->] & _). done. }
    destruct (new_epoch_outcome w) as [[Hret Hself] | [Hret Hself]].
    + destruct (Hnew _ Hself) as (Hlast & Hex' & Hlen). repeat split; done.
    + split; [by apply (keys_exact_self w)|]. split; [done|].
      intros Hdr. destruct (new_epoch_spec w Hnd Hex Hdr) as (w1 & Hrun & _).
      by rewrite Hrun.
  - intros itl. split; [by apply log_info_keys_exact|].
    intros Hret. by apply log_info_same_length.
  - intros epoch. split; [by apply load_epoch_keys_exact|apply save_epoch_self].
  - apply plot_effect.
Qed.

Lemma key_completeness_invariant_witness :
  (keys_exact (snd (new_epoch example_world))
   /\ (fst (new_epoch example_world) = Return tt ->
       list_index (info (self (snd (new_epoch example_world)))) (-1)
       = Some (map (fun k => (k, [])) (keys_of example_world))
       /\ open_same_length (snd (new_epoch example_world)))
   /\ (charts_drawable example_world -> fst (new_epoch example_world) = Return tt))
  /\ (forall itl,
        keys_exact (snd (log_info itl example_world))
        /\ (fst (log_info itl example_world) = Return tt ->
            (open_same_length example_world
             <-> open_same_length (snd (log_info itl example_world)))))
  /\ (forall epoch,
        keys_exact (snd (load_epoch epoch example_world))
        /\ self (snd (save_epoch (fun x => x) epoch example_world)) = self example_world)
  /\ self (snd (plot example_world)) = self example_world.
Proof.
  apply (key_completeness_invariant (fun x => x) example_world).
  - unfold keys_distinct. compute_done.
  - unfold keys_exact. by repeat constructor.
Defined.

Lemma not_same_length_2_1 (k1 k2 : string) (x y z : float) :
  ~ same_length [(k1, [x; y]); (k2, [z])].
Proof.
  intros [n Hn]. apply Forall_cons in Hn as [H1 Hn]. apply Forall_cons in Hn as [H2 _].
  simpl in H1, H2. congruence.
Qed.

(** Counterexample to C3 as the specification words it.
    - A [log_info] call that raises at the second key has already appended
      to the first, so the sequences of the open epoch differ in length
      after it.
    - A call with a valid mapping that follows returns, and the lengths
      still differ after it.
    - [load_epoch] on files of different lengths returns with an open
      epoch whose sequences differ in length, from one where they did
      not. *)
Lemma equal_length_not_kept :
  ~ log_info_keeps_same_length example_values_missing example_world
  /\ (fst (log_info example_values example_failed_world) = Return tt
      /\ ~ open_same_length (snd (log_info example_values example_failed_world)))
  /\ (open_same_length example_uneven_world
      /\ fst (load_epoch 0 example_uneven_world) = Return tt
      /\ ~ open_same_length (snd (load_epoch 0 example_uneven_world))).
Proof.
  split; [|split].
  - intros H.
    specialize (H example_world_keys_distinct example_world_keys_exact
                  example_world_same_length).
    destruct H as [n Hn].
    apply Forall_cons in Hn as [H1 Hn]. apply Forall_cons in Hn as [H2 _].
    simpl in H1, H2. congruence.
  - split; [vm_compute; reflexivity|].
    assert (list_index (info (self (snd (log_info example_values example_failed_world)))) (-1)
            = Some [("loss", [0.5%float; 0.5%float]); ("acc", [0.125%float])]) as Hlast
      by (vm_compute; reflexivity).
    unfold open_same_length. rewrite Hlast. apply not_same_length_2_1.
  - split; [exists 0%nat; by repeat constructor|].
    split; [vm_compute; reflexivity|].
    assert (list_index (info (self (snd (load_epoch 0 example_uneven_world)))) (-1)
            = Some [("loss", [0.5%float; 0.25%float]); ("acc", [0.125%float])]) as Hlast
      by (vm_compute; reflexivity).
    unfold open_same_length. rewrite Hlast. apply not_same_length_2_1.
Qed.

Example failed_log_info_state :
  log_info example_values_missing example_world = (Raise KeyError, example_failed_world).
Proof. vm_compute. reflexivity. Qed.

(** ** Counting [plot] calls *)

(** The counter comes back to zero exactly when the quotient by the period grows. *)
Lemma wrap_iff_quotient_grows (c P : Z) :
  0 < P -> (if (c + 1) mod P =? 0 then 1 else 0) = (c + 1) / P - c / P.
Proof.
  intros HP.
  pose proof (Z.div_mod c P ltac:(lia)) as Hc.
  pose proof (Z.mod_pos_bound c P HP) as Hr.
  pose proof (Z.div_mod (c + 1) P ltac:(lia)) as Hc1.
  pose proof (Z.mod_pos_bound (c + 1) P HP) as Hr1.
  destruct (Z.eqb_spec ((c + 1) mod P) 0); nia.
Qed.

Lemma quotient_shift (c n P : Z) :
  0 < P -> ((c + 1) mod P + n) / P - ((c + 1) mod P) / P = (c + 1 + n) / P - (c + 1) / P.
Proof.
  intros HP.
  pose proof (Z.div_mod (c + 1) P ltac:(lia)) as Hc.
  pose proof (Z.mod_pos_bound (c + 1) P HP) as Hr.
  rewrite (Z.div_small ((c + 1) mod P)) by lia.
  assert (c + 1 + n = (c + 1) / P * P + ((c + 1) mod P + n)) as Heq by lia.
  rewrite Heq. rewrite Z.div_add_l by lia. lia.
Qed.

(** Consecutive [log_info] calls with valid mappings, plotting enabled,
    a positive period: all return, and the number of [plot] calls is the
    growth of the quotient of the call count by the period. *)
Lemma log_calls_plots (calls : list (dict pyval)) :
  forall w : World,
    keys_distinct w -> keys_exact w -> charts_drawable w -> info (self w) <> [] ->
    periodic_plot (self w) = true -> 0 < period (self w) ->
    Forall (fun itl => valid_input itl (keys_of w) = true) calls ->
    exists w',
      for_each calls log_info w = (Return tt, w')
      /\ Z.of_nat (plot_calls w')
         = Z.of_nat (plot_calls w)
           + ((plot_counter (self w) + Z.of_nat (length calls)) / period (self w)
              - plot_counter (self w) / period (self w)).
Proof.
  induction calls as [|itl calls IH]; intros w Hnd Hex Hdr Hne Hpp HP Hvalid.
  - exists w. split; [done|]. simpl. rewrite Z.add_0_r. lia.
  - apply Forall_cons in Hvalid as [Hv Hvalid].
    destruct (nonempty_snoc _ Hne) as (init & e & Hinfo).
    destruct (log_info_spec itl w init e) as (w1 & e' & Hrun & (Hself & _) & Hpc & Hkeys & _);
      try done.
    { intros _. lia. }
    simpl. unfold bind. rewrite Hrun.
    assert (keys_of w1 = keys_of w) as Hk1 by (unfold keys_of; by rewrite Hself).
    destruct (IH w1) as (w' & Hrun' & Hcount).
    + unfold keys_distinct. by rewrite Hk1.
    + unfold keys_exact. rewrite Hk1, Hself. simpl.
      apply (keys_exact_snoc w init e); [done|done|].
      rewrite Hkeys. symmetry. by apply (keys_exact_last w init e).
    + unfold charts_drawable. by rewrite Hself.
    + rewrite Hself. simpl. by destruct init.
    + by rewrite Hself.
    + by rewrite Hself.
    + by rewrite Hk1.
    + exists w'. split; [done|]. rewrite Hcount, Hpc, Hself. simpl.
      unfold plots_now, next_counter. rewrite Hpp. simpl.
      pose proof (wrap_iff_quotient_grows (plot_counter (self w)) (period (self w)) HP) as Hw.
      pose proof (quotient_shift (plot_counter (self w)) (Z.of_nat (length calls))
                    (period (self w)) HP) as Hq.
      replace (plot_counter (self w) + Z.of_nat (S (length calls)))
        with (plot_counter (self w) + 1 + Z.of_nat (length calls)) by lia.
      destruct (_ =? 0); lia.
Qed.

(** C6.  With plotting enabled and a positive period [P], in a store with
    an open epoch and drawable charts: a [log_info] call with a valid
    mapping runs [plot] exactly when the counter, advanced by one modulo
    [P], is zero; [P] consecutive such calls run [plot] exactly once; and
    [new_epoch] runs [plot] once, except while [is_loading] is set, when
    it runs none. *)
Theorem one_plot_per_period (w : World) (calls : list (dict pyval)) :
  keys_distinct w -> keys_exact w -> charts_drawable w -> info (self w) <> [] ->
  periodic_plot (self w) = true -> 0 < period (self w) ->
  Forall (fun itl => valid_input itl (keys_of w) = true) calls ->
  Z.of_nat (length calls) = period (self w) ->
  (exists w', for_each calls log_info w = (Return tt, w')
              /\ plot_calls w' = S (plot_calls w))
  /\ (forall itl, valid_input itl (keys_of w) = true ->
        exists w', log_info itl w = (Return tt, w')
                   /\ plot_counter (self w') = (plot_counter (self w) + 1) mod period (self w)
                   /\ plot_calls w'
                      = if plot_counter (self w') =? 0
                        then S (plot_calls w) else plot_calls w)
  /\ (exists w', new_epoch w = (Return tt, w')
                 /\ plot_calls w'
                    = if is_loading (self w) then plot_calls w else S (plot_calls w)).
Proof.
  intros Hnd Hex Hdr Hne Hpp HP Hvalid Hlen. split; [|split].
  - destruct (log_calls_plots calls w) as (w' & Hrun & Hcount); try done.
    exists w'. split; [done|]. rewrite Hlen in Hcount.
    replace (plot_counter (self w) + period (self w))
      with (plot_counter (self w) + 1 * period (self w)) in Hcount by lia.
    rewrite Z.div_add in Hcount by lia. lia.
  - intros itl Hv. destruct (nonempty_snoc _ Hne) as (init & e & Hinfo).
    destruct (log_info_spec itl w init e) as (w' & e' & Hrun & (Hself & _) & Hpc & _);
      try done.
    { intros _. lia. }
    exists w'. split; [done|]. rewrite Hself. simpl.
    unfold plots_now, next_counter in *. rewrite Hpp in *. done.
  - destruct (new_epoch_spec w Hnd Hex Hdr) as (w1 & Hrun & _ & Hpc).
    eexists. split; [exact Hrun|]. simpl. rewrite Hpc, Hpp.
    by destruct (is_loading (self w)).
Qed.

Lemma one_plot_per_period_witness :
  (exists w', for_each [example_values; example_values] log_info example_world
              = (Return tt, w')
              /\ plot_calls w' = S (plot_calls example_world))
  /\ (forall itl, valid_input itl (keys_of example_world) = true ->
        exists w', log_info itl example_world = (Return tt, w')
                   /\ plot_counter (self w')
                      = (plot_counter (self example_world) + 1)
                        mod period (self example_world)
                   /\ plot_calls w'
                      = if plot_counter (self w') =? 0
                        then S (plot_calls example_world) else plot_calls example_world)
  /\ (exists w', new_epoch example_world = (Return tt, w')
                 /\ plot_calls w'
                    = if is_loading (self example_world)
                      then plot_calls example_world else S (plot_calls example_world)).
Proof.
  apply (one_plot_per_period example_world [example_values; example_values]).
  - unfold keys_distinct. compute_done.
  - unfold keys_exact. by repeat constructor.
  - unfold charts_drawable. by repeat constructor.
  - discriminate.
  - reflexivity.
  - reflexivity.
  - by repeat constructor.
  - reflexivity.
Defined.

(** The example of the specification: period 2, two calls, one chart
    refresh at the second. *)
Example two_calls_one_plot :
  let r1 := log_info example_values example_world in
  let r2 := log_info example_values (snd r1) in
  (fst r1, plot_counter (self (snd r1)), plot_calls (snd r1)) = (Return tt, 1, 0%nat)
  /\ (fst r2, plot_counter (self (snd r2)), plot_calls (snd r2)) = (Return tt, 0, 1%nat)
  /\ info (self (snd r2))
     = [ [("loss", [0.5%float; 0.5%float]); ("acc", [0.125%float; 0.125%float])] ].
Proof. vm_compute. repeat split; reflexivity. Qed.

(** ** [save_epoch] and the round trip *)

Lemma save_key_ok (reread : float -> float) (epoch : Z) (k : string) (w : World) e v :
  list_index (info (self w)) epoch = Some e ->
  dict_get k e = Some v ->
  save_key reread epoch k w
  = (Return tt,
     with_files (fun _ => <[epoch_path (log_dir_path (self w)) k epoch
                            := JsonFloats (map reread v)]> (files w)) w).
Proof.
  intros He Hv. unfold save_key. unfold_monad. simpl. rewrite He. simpl.
  rewrite Hv. simpl. unfold with_files. simpl. by rewrite insert_insert_eq.
Qed.

Lemma save_keys_ok (reread : float -> float) (epoch : Z) (ks : list string) :
  forall (w : World) e,
    list_index (info (self w)) epoch = Some e ->
    (forall k, k ∈ ks -> k ∈ dict_keys e) ->
    for_each ks (save_key reread epoch) w
    = (Return tt,
       with_files (fun _ => saved reread (log_dir_path (self w)) epoch e ks (files w)) w).
Proof.
  induction ks as [|k ks IH]; intros w e He Hin; simpl.
  - unfold ret, with_files. by destruct w.
  - destruct (proj2 (dict_get_is_Some k e) (Hin k ltac:(left))) as [v Hv].
    unfold bind. rewrite (save_key_ok reread epoch k w e v) by done.
    rewrite (IH _ e); [|done|].
    + unfold saved. simpl. by rewrite Hv.
    + intros k' Hk'. apply Hin. by right.
Qed.

Lemma saved_lookup_other reread dir epoch e (ks : list string) :
  forall (fs : gmap string file) (p : string),
    p ∉ map (fun k => epoch_path dir k epoch) ks ->
    saved reread dir epoch e ks fs !! p = fs !! p.
Proof.
  unfold saved. induction ks as [|k ks IH]; intros fs p Hp; simpl in *; [done|].
  apply not_elem_of_cons in Hp as [Hne Hp].
  rewrite IH by done. by apply lookup_insert_ne.
Qed.

Lemma saved_lookup_key reread dir epoch e (ks : list string) :
  forall (fs : gmap string file) (k : string) v,
    NoDup (map (fun k => epoch_path dir k epoch) ks) ->
    k ∈ ks -> dict_get k e = Some v ->
    saved reread dir epoch e ks fs !! epoch_path dir k epoch
    = Some (JsonFloats (map reread v)).
Proof.
  induction ks as [|k0 ks IH]; intros fs k v Hnd Hk Hv; [inversion Hk|].
  simpl in Hnd. apply NoDup_cons in Hnd as [Hp0 Hnd].
  apply elem_of_cons in Hk as [->|Hk].
  - change (saved reread dir epoch e (k0 :: ks) fs)
      with (saved reread dir epoch e ks
              (<[epoch_path dir k0 epoch
                 := JsonFloats (map reread (default [] (dict_get k0 e)))]> fs)).
    rewrite saved_lookup_other by done.
    by rewrite lookup_insert_eq, Hv.
  - by apply IH.
Qed.

(** Why the keys are asked to be plain names: [os.path.join] drops the
    directory in front of an absolute name, so a key that spells out the
    directory shares its files with the plain key. *)
Example absolute_key_shares_file :
  epoch_path "/logs" "/logs/loss" 0 = epoch_path "/logs" "loss" 0.
Proof. reflexivity. Qed.

Lemma reread_record_keys (reread : float -> float) (e : epoch_info) :
  dict_keys (reread_record reread e) = dict_keys e.
Proof. unfold reread_record, dict_keys. rewrite map_map. by apply map_ext. Qed.

Lemma reread_record_get (reread : float -> float) (e : epoch_info) (k : string) :
  dict_get k (reread_record reread e) = option_map (map reread) (dict_get k e).
Proof.
  induction e as [|[k' v] r IH]; simpl; [done|].
  by destruct (String.eqb k' k).
Qed.

(** Where [reread] returns the floats of a record, the record is read back
    as it is. *)
Lemma reread_record_exact (reread : float -> float) (e : epoch_info) :
  exact_on reread e -> reread_record reread e = e.
Proof.
  unfold exact_on, reread_record. induction 1 as [|[k v] r Hv _ IH]; simpl; [done|].
  simpl in Hv. f_equal; [|done]. f_equal.
  induction Hv as [|x l Hx _ IHl]; simpl; [done|]. by rewrite Hx, IHl.
Qed.

(** C2.  For a record [e] of [self.info] at index [epoch], in a store
    whose records have exactly the declared keys and whose declared keys
    are distinct plain file names (and whose charts are drawable, for
    [new_epoch] redraws them): [save_epoch epoch], a new open epoch and
    [load_epoch epoch] all return, and the open epoch then has the keys of
    [e] in their order and, for every key, the sequence of [e] in its
    order, each float as [json.load] reads it from the numeral [json.dump]
    wrote; where these are the floats themselves, the open epoch is [e]. *)
Theorem save_load_round_trip (reread : float -> float) (epoch : Z) (w : World)
    (e : epoch_info) :
  keys_distinct w -> keys_plain w -> keys_exact w -> charts_drawable w ->
  list_index (info (self w)) epoch = Some e ->
  exists w',
    save_then_load reread epoch w = (Return tt, w')
    /\ info (self w') = info (self w) ++ [reread_record reread e]
    /\ (forall k v, dict_get k e = Some v ->
          list_index (info (self w')) (-1) ≫= dict_get k = Some (map reread v))
    /\ (exact_on reread e -> info (self w') = info (self w) ++ [e]).
Proof.
  intros Hnd Hpl Hex Hdr He.
  assert (dict_keys e = keys_of w) as Hke.
  { unfold keys_exact in Hex. rewrite Forall_forall in Hex.
    apply Hex. by eapply list_index_elem. }
  unfold save_then_load, save_epoch, bind at 1 2, gets.
  rewrite (save_keys_ok reread epoch (keys_of w) w e) by (done || by rewrite Hke).
  set (w1 := with_files _ w).
  destruct (new_epoch_spec w1) as (w2 & Hnew & (Hself & _ & Hfiles) & _); [done|done|done|].
  unfold bind at 1. rewrite Hnew.
  set (w3 := with_info _ w2).
  assert (info (self w3) = info (self w) ++ [map (fun k => (k, [])) (keys_of w)]) as Hinfo3.
  { subst w3. simpl. by rewrite Hself. }
  assert (forall k, k ∈ keys_of w ->
            exists v, dict_get k e = Some v
                      /\ files w3 !! epoch_path (log_dir_path (self w3)) k epoch
                         = Some (JsonFloats (map reread v))) as Hread.
  { intros k Hk. destruct (proj2 (dict_get_is_Some k e)) as [v Hv]; [by rewrite Hke|].
    exists v. split; [done|]. subst w3. simpl. rewrite Hself. simpl.
    etrans; [exact (Hfiles k epoch)|]. subst w1. simpl.
    apply saved_lookup_key; [by apply plain_keys_epoch_paths|done|done]. }
  unfold load_epoch, bind, gets.
  change (keys_of w3) with (dict_keys (meta_info_dict (self w2))).
  rewrite Hself. change (dict_keys (meta_info_dict (self w1))) with (keys_of w).
  rewrite (load_keys_readable epoch (keys_of w) w3 (info (self w))
             (map (fun k => (k, [])) (keys_of w))); [|done|].
  2:{ intros k Hk. destruct (Hread k Hk) as (v & _ & Hv). by eexists. }
  set (e' := loaded _ _ _ _ _).
  assert (e' = reread_record reread e) as ->.
  { apply dict_ext.
    - subst e'. rewrite loaded_keys.
      + rewrite (dict_keys_map (fun _ => [])), reread_record_keys. congruence.
      + intros k. by rewrite (dict_keys_map (fun _ => [])).
    - subst e'. rewrite loaded_keys.
      + by rewrite (dict_keys_map (fun _ => [])).
      + intros k. by rewrite (dict_keys_map (fun _ => [])).
    - intros k Hk. subst e'. rewrite loaded_keys in Hk.
      2:{ intros k'. by rewrite (dict_keys_map (fun _ => [])). }
      rewrite (dict_keys_map (fun _ => [])) in Hk.
      rewrite loaded_get, decide_True by done.
      destruct (Hread k Hk) as (v & Hv & Hfile).
      unfold file_floats. by rewrite Hfile, reread_record_get, Hv. }
  eexists. split; [done|]. simpl. split; [done|]. split.
  - intros k v Hv. rewrite list_index_last. simpl.
    by rewrite reread_record_get, Hv.
  - intros Hexact. by rewrite reread_record_exact.
Qed.

Lemma save_load_round_trip_witness :
  exists w',
    save_then_load (fun x => x) 0 example_recorded_world = (Return tt, w')
    /\ info (self w')
       = info (self example_recorded_world) ++ [reread_record (fun x => x) example_record]
    /\ (forall k v, dict_get k example_record = Some v ->
          list_index (info (self w')) (-1) ≫= dict_get k = Some (map (fun x => x) v))
    /\ (exact_on (fun x => x) example_record ->
        info (self w') = info (self example_recorded_world) ++ [example_record]).
Proof.
  apply (save_load_round_trip (fun x => x) 0 example_recorded_world example_record).
  - unfold keys_distinct. compute_done.
  - unfold keys_plain. by repeat constructor.
  - unfold keys_exact. by repeat constructor.
  - unfold charts_drawable. by repeat constructor.
  - reflexivity.
Defined.

Example save_epoch_example :
  files (snd (save_epoch (fun x => x) 0 example_recorded_world))
  = <["logs/loss_00.json" := JsonFloats [0.5%float; 0.25%float]]>
      (<["logs/acc_00.json" := JsonFloats [0.125%float; 0.75%float]]> ∅).
Proof. vm_compute. reflexivity. Qed.

(** ** Summaries *)

Lemma get_key_alias_raises (key : string) (w : World) :
  get_key_alias key w = (Raise NameError, w).
Proof. reflexivity. Qed.

Lemma getattr_dir_path_raises (w : World) :
  getattr_path "dir_path" w = (Raise AttributeError, w).
Proof. reflexivity. Qed.

Lemma summarize_nonempty (items : epoch_info) :
  forall (summary : dict float) (w : World),
    Forall (fun kv => snd kv <> []) items ->
    exists summary', summarize items summary w = (Return summary', w).
Proof.
  induction items as [|[k v] r IH]; intros summary w Hall; simpl.
  - by exists summary.
  - apply Forall_cons in Hall as [Hv Hr]. simpl in Hv.
    unfold bind, mean. destruct v as [|x v]; [done|]. simpl.
    by apply IH.
Qed.

Lemma summarize_empty (items : epoch_info) :
  forall (summary : dict float) (w : World),
    Exists (fun kv => snd kv = []) items ->
    summarize items summary w = (Raise ZeroDivisionError, w).
Proof.
  induction items as [|[k v] r IH]; intros summary w Hex; simpl.
  - inversion Hex.
  - unfold bind, mean. destruct v as [|x v]; [done|]. simpl.
    apply IH. apply Exists_cons in Hex as [Hv|Hr]; [done|exact Hr].
Qed.

(** C7, what the code does instead.  For every recorded epoch with at least one
    value per key, [save_epoch_summary] computes the means, then raises
    [AttributeError] at [self.dir_path], and no file is written. *)
Theorem save_epoch_summary_raises (epoch : Z) (w : World) (e : epoch_info) :
  list_index (info (self w)) epoch = Some e ->
  Forall (fun kv => snd kv <> []) e ->
  save_epoch_summary epoch w = (Raise AttributeError, w).
Proof.
  intros He Hall. unfold save_epoch_summary. unfold_monad. rewrite He.
  destruct (summarize_nonempty e [] w Hall) as [summary ->].
  by rewrite getattr_dir_path_raises.
Qed.

Lemma save_epoch_summary_raises_witness :
  save_epoch_summary 0 example_recorded_world
  = (Raise AttributeError, example_recorded_world).
Proof.
  apply (save_epoch_summary_raises 0 example_recorded_world example_record).
  - reflexivity.
  - repeat constructor; discriminate.
Defined.

(** C8, what the code does instead.  For every epoch record with at least one key,
    [print_epoch_summary] prints the header line and then raises
    [NameError] in [get_key_alias]; no alias and no mean is printed. *)
Theorem print_epoch_summary_raises (format_3f : float -> string) (epoch : Z)
    (w : World) (e : epoch_info) :
  list_index (info (self w)) epoch = Some e ->
  e <> [] ->
  print_epoch_summary format_3f epoch w
  = (Raise NameError, with_stdout (fun o => o ++ [summary_header epoch]) w).
Proof.
  intros He Hne. unfold print_epoch_summary, print. unfold_monad. simpl.
  rewrite He. by destruct e as [|[k v] r].
Qed.

Lemma print_epoch_summary_raises_witness :
  print_epoch_summary (fun _ => "0.375") 0 example_recorded_world
  = (Raise NameError,
     with_stdout (fun o => o ++ [summary_header 0]) example_recorded_world).
Proof.
  apply (print_epoch_summary_raises (fun _ => "0.375") 0 example_recorded_world
           example_record); [reflexivity|discriminate].
Defined.

(** The half of C9 that holds: [save_epoch_summary] raises
    [ZeroDivisionError] when a key of the epoch has no value. *)
Lemma save_epoch_summary_empty (epoch : Z) (w : World) (e : epoch_info) :
  list_index (info (self w)) epoch = Some e ->
  Exists (fun kv => snd kv = []) e ->
  save_epoch_summary epoch w = (Raise ZeroDivisionError, w).
Proof.
  intros He Hex. unfold save_epoch_summary. unfold_monad. rewrite He.
  by rewrite summarize_empty.
Qed.

(** C9, what the code does.  When a key of the
    epoch has no value, [save_epoch_summary] raises [ZeroDivisionError],
    but [print_epoch_summary] raises [NameError] before any division. *)
Theorem summaries_of_empty_epoch (format_3f : float -> string) (epoch : Z)
    (w : World) (e : epoch_info) :
  list_index (info (self w)) epoch = Some e ->
  Exists (fun kv => snd kv = []) e ->
  fst (save_epoch_summary epoch w) = Raise ZeroDivisionError
  /\ fst (print_epoch_summary format_3f epoch w) = Raise NameError.
Proof.
  intros He Hex. split.
  - by rewrite (save_epoch_summary_empty epoch w e).
  - unfold print_epoch_summary, print. unfold_monad. simpl.
    rewrite He. by destruct e as [|[k v] r]; [inversion Hex|].
Qed.

Lemma summaries_of_empty_epoch_witness :
  fst (save_epoch_summary 0 example_world) = Raise ZeroDivisionError
  /\ fst (print_epoch_summary (fun _ => "nan") 0 example_world) = Raise NameError.
Proof.
  apply (summaries_of_empty_epoch (fun _ => "nan") 0 example_world
           [("loss", []); ("acc", [])]); [reflexivity|by left].
Defined.

(** * Further properties of the methods *)

(** ** [save_epoch] and [save_last_epoch] *)

Lemma list_index_last_nat {A} (init : list A) (x : A) :
  list_index (init ++ [x]) (Z.of_nat (length (init ++ [x])) - 1) = Some x.
Proof.
  unfold list_index. rewrite length_app. simpl.
  rewrite (proj2 (Z.leb_le _ _)) by lia.
  replace (Z.to_nat (Z.of_nat (length init + 1) - 1)) with (length init + 0)%nat by lia.
  by rewrite lookup_app_r, Nat.add_0_r, Nat.sub_diag by lia.
Qed.

Lemma save_epoch_effect (reread : float -> float) (epoch : Z) (w : World) (e : epoch_info) :
  list_index (info (self w)) epoch = Some e ->
  dict_keys e = keys_of w ->
  keys_distinct w -> keys_plain w ->
  exists w',
    save_epoch reread epoch w = (Return tt, w')
    /\ self w' = self w /\ stdout w' = stdout w /\ plot_calls w' = plot_calls w
    /\ (forall k v, k ∈ keys_of w -> dict_get k e = Some v ->
          files w' !! epoch_path (log_dir_path (self w)) k epoch
          = Some (JsonFloats (map reread v)))
    /\ (forall p, p ∉ map (fun k => epoch_path (log_dir_path (self w)) k epoch) (keys_of w) ->
          files w' !! p = files w !! p).
Proof.
  intros He Hke Hnd Hpl. unfold save_epoch, bind, gets.
  rewrite (save_keys_ok reread epoch (keys_of w) w e) by (done || by rewrite Hke).
  eexists. split; [done|]. simpl. repeat split.
  - intros k v Hk Hv. apply saved_lookup_key; [by apply plain_keys_epoch_paths|done|done].
  - intros p Hp. by apply saved_lookup_other.
Qed.

(** X1.  [save_epoch epoch] for an index in range, a record with the
    declared keys and declared keys that are distinct plain file names:
    the call returns, the file of every declared key then holds that
    key's sequence of the record, in its order, each float as [json.load]
    reads it from the numeral written; every other file is as before, and
    the logger, standard output and the count of [plot] calls did not
    move. *)
Theorem save_epoch_writes_each_key (reread : float -> float) (epoch : Z) (w : World)
    (e : epoch_info) :
  list_index (info (self w)) epoch = Some e ->
  dict_keys e = keys_of w ->
  keys_distinct w -> keys_plain w ->
  exists w',
    save_epoch reread epoch w = (Return tt, w')
    /\ self w' = self w /\ stdout w' = stdout w /\ plot_calls w' = plot_calls w
    /\ (forall k v, k ∈ keys_of w -> dict_get k e = Some v ->
          files w' !! epoch_path (log_dir_path (self w)) k epoch
          = Some (JsonFloats (map reread v)))
    /\ (forall p, p ∉ map (fun k => epoch_path (log_dir_path (self w)) k epoch) (keys_of w) ->
          files w' !! p = files w !! p).
Proof. apply save_epoch_effect. Qed.

Lemma save_epoch_writes_each_key_witness :
  exists w',
    save_epoch (fun x => x) 0 example_recorded_world = (Return tt, w')
    /\ self w' = self example_recorded_world
    /\ stdout w' = stdout example_recorded_world
    /\ plot_calls w' = plot_calls example_recorded_world
    /\ (forall k v, k ∈ keys_of example_recorded_world ->
          dict_get k example_record = Some v ->
          files w' !! epoch_path "logs" k 0 = Some (JsonFloats (map (fun x => x) v)))
    /\ (forall p, p ∉ map (fun k => epoch_path "logs" k 0) (keys_of example_recorded_world) ->
          files w' !! p = files example_recorded_world !! p).
Proof.
  apply (save_epoch_writes_each_key (fun x => x) 0 example_recorded_world example_record).
  - reflexivity.
  - reflexivity.
  - unfold keys_distinct. compute_done.
  - unfold keys_plain. by repeat constructor.
Defined.



(** X3.  [save_last_epoch] in a store with [n + 1] records and declared
    keys that are distinct plain file names: the call returns and the
    file of every declared key for index [n] holds that key's sequence of
    the last record, each float as [json.load] reads it from the numeral
    written. *)
Theorem save_last_epoch_writes_last_record (reread : float -> float) (w : World) init
    (e : epoch_info) :
  info (self w) = init ++ [e] ->
  dict_keys e = keys_of w ->
  keys_distinct w -> keys_plain w ->
  exists w',
    save_last_epoch reread w = (Return tt, w')
    /\ self w' = self w
    /\ (forall k v, k ∈ keys_of w -> dict_get k e = Some v ->
          files w' !! epoch_path (log_dir_path (self w)) k (Z.of_nat (length init))
          = Some (JsonFloats (map reread v))).
Proof.
  intros Hinfo Hke Hnd Hpl. unfold save_last_epoch, bind at 1, gets.
  assert (Z.of_nat (length (info (self w))) - 1 = Z.of_nat (length init)) as Hidx.
  { rewrite Hinfo, length_app. simpl. lia. }
  rewrite Hidx.
  destruct (save_epoch_effect reread (Z.of_nat (length init)) w e)
    as (w' & Hrun & Hself & _ & _ & Hfiles & _); try done.
  { rewrite <- Hidx, Hinfo. apply list_index_last_nat. }
  exists w'. by repeat split.
Qed.

Lemma save_last_epoch_writes_last_record_witness :
  exists w',
    save_last_epoch (fun x => x) example_recorded_world = (Return tt, w')
    /\ self w' = self example_recorded_world
    /\ (forall k v, k ∈ keys_of example_recorded_world ->
          dict_get k example_record = Some v ->
          files w' !! epoch_path "logs" k (Z.of_nat (length (@nil epoch_info)))
          = Some (JsonFloats (map (fun x => x) v))).
Proof.
  apply (save_last_epoch_writes_last_record (fun x => x) example_recorded_world []
           example_record).
  - reflexivity.
  - reflexivity.
  - unfold keys_distinct. compute_done.
  - unfold keys_plain. by repeat constructor.
Defined.



(** ** What [log_info] and [load_epoch] leave alone *)

Lemma list_assign_last_only {A} (l : list A) (x : A) :
  removelast (list_assign l (-1) x) = removelast l
  /\ length (list_assign l (-1) x) = length l.
Proof.
  destruct l as [|y l _] using rev_ind.
  - by unfold list_assign.
  - rewrite list_assign_last, !removelast_last, !length_app. done.
Qed.

Lemma frame_assign_last (w : World) (e : epoch_info) :
  frame_of (with_info (fun l => list_assign l (-1) e) w) = frame_of w.
Proof.
  unfold frame_of. simpl.
  destruct (list_assign_last_only (info (self w)) e) as [-> ->]. done.
Qed.

Lemma log_key_frame (itl : dict pyval) (k : string) (w : World) :
  frame_of (snd (log_key itl k w)) = frame_of w.
Proof.
  unfold log_key. unfold_monad.
  destruct (dict_get k itl) as [[f| | | |]|]; simpl; try done.
  destruct (list_index _ _) as [e|]; simpl; [|done].
  destruct (dict_get k e) as [old|]; simpl; [|done].
  apply frame_assign_last.
Qed.

Lemma load_key_frame (epoch : Z) (k : string) (w : World) :
  frame_of (snd (load_key epoch k w)) = frame_of w.
Proof.
  unfold load_key. unfold_monad. simpl.
  destruct (files w !! _) as [[v| | |]|]; simpl; try done.
  destruct (list_index _ _) as [e|]; simpl; [|done].
  apply frame_assign_last.
Qed.

(** X5.  Whatever the index, the directory and the outcome, [load_epoch]
    changes at most the last record of [self.info]: the earlier records,
    the number of records, every other attribute, the files, standard
    output and the count of [plot] calls are as before. *)
Theorem load_epoch_touches_last_record_only (epoch : Z) (w : World) :
  frame_of (snd (load_epoch epoch w)) = frame_of w.
Proof.
  unfold load_epoch, bind, gets.
  apply (for_each_invariant (fun w' => frame_of w' = frame_of w)); [|done].
  intros k w' _ <-. apply load_key_frame.
Qed.

Lemma log_keys_frame (itl : dict pyval) (ks : list string) (w : World) :
  frame_of (snd (for_each ks (log_key itl) w)) = frame_of w.
Proof.
  apply (for_each_invariant (fun w' => frame_of w' = frame_of w)); [|done].
  intros k w' _ <-. apply log_key_frame.
Qed.

(** X6.  Whatever the mapping and the outcome, [log_info] leaves the
    earlier records, the number of records, standard output and every
    epoch file as they were; with plotting disabled it also leaves the
    plot counter, the count of [plot] calls and all files as they were. *)
Theorem log_info_touches_open_epoch_only (itl : dict pyval) (w : World) :
  let w' := snd (log_info itl w) in
  removelast (info (self w')) = removelast (info (self w))
  /\ length (info (self w')) = length (info (self w))
  /\ stdout w' = stdout w
  /\ (forall k epoch,
        files w' !! epoch_path (log_dir_path (self w)) k epoch
        = files w !! epoch_path (log_dir_path (self w)) k epoch)
  /\ (periodic_plot (self w) = false ->
      files w' = files w /\ plot_calls w' = plot_calls w
      /\ plot_counter (self w') = plot_counter (self w)).
Proof.
  set (P := fun w' : World =>
    removelast (info (self w')) = removelast (info (self w))
    /\ length (info (self w')) = length (info (self w))
    /\ stdout w' = stdout w
    /\ (forall k epoch,
          files w' !! epoch_path (log_dir_path (self w)) k epoch
          = files w !! epoch_path (log_dir_path (self w)) k epoch)
    /\ (periodic_plot (self w) = false ->
        files w' = files w /\ plot_calls w' = plot_calls w
        /\ plot_counter (self w') = plot_counter (self w))).
  change (P (snd (log_info itl w))).
  unfold log_info, bind at 1 2, gets.
  pose proof (log_keys_frame itl (keys_of w) w) as Hframe.
  destruct (for_each _ _ w) as [r w1]. simpl in Hframe.
  unfold frame_of in Hframe.
  injection Hframe as Hrl Hlen Hmeta Hdir Hpp Hper Hc Hload Hfiles Hout Hcalls.
  assert (P w1) as HP1.
  { unfold P. rewrite Hrl, Hlen, Hout, Hfiles, Hcalls, Hc. by repeat split. }
  destruct r as [[]| |]; [|done|done].
  unfold bind at 1. rewrite Hpp.
  destruct (periodic_plot (self w)) eqn:Hplot; [|done].
  rewrite Hper, Hc.
  destruct (period (self w) =? 0); [done|].
  unfold bind, modify.
  set (w2 := with_plot_counter _ w1).
  destruct (_ =? 0).
  - destruct (plot_effect w2) as [(Hself & Hout2 & Hfiles2) _].
    unfold P. rewrite Hself, Hout2. subst w2. simpl.
    rewrite Hrl, Hlen, Hout. repeat split; try done.
    intros k epoch. simpl in Hfiles2. rewrite <- Hdir, Hfiles2, Hdir. by rewrite Hfiles.
  - unfold P. subst w2. simpl. rewrite Hrl, Hlen, Hout, Hfiles. by repeat split.
Qed.

(** X7.  In a store without records, with at least one declared key for
    which the mapping gives a float, [log_info] raises [IndexError] and
    changes nothing: after construction on an empty directory a
    [new_epoch] call has to come first. *)
Theorem log_info_without_open_epoch (itl : dict pyval) (w : World)
    (k0 : string) (rest : list string) :
  info (self w) = [] ->
  keys_of w = k0 :: rest ->
  valid_value itl k0 = true ->
  log_info itl w = (Raise IndexError, w).
Proof.
  intros Hinfo Hk Hv. unfold log_info, bind, gets. rewrite Hk. simpl.
  unfold bind, log_key, valid_value in *. unfold_monad.
  destruct (dict_get k0 itl) as [[f| | | |]|]; try done.
  simpl. by rewrite Hinfo, list_index_nil.
Qed.

Lemma log_info_without_open_epoch_witness :
  log_info example_values (MkWorld (example_logger []) ∅ [] 0)
  = (Raise IndexError, MkWorld (example_logger []) ∅ [] 0).
Proof.
  apply (log_info_without_open_epoch example_values
           (MkWorld (example_logger []) ∅ [] 0) "loss" ["acc"]); reflexivity.
Defined.

(** ** The summary methods *)

Lemma summarize_outcome (items : epoch_info) :
  forall (summary : dict float) (w : World),
    if existsb (fun kv : string * list float => (length (snd kv) =? 0)%nat) items
    then summarize items summary w = (Raise ZeroDivisionError, w)
    else exists summary', summarize items summary w = (Return summary', w).
Proof.
  induction items as [|[k v] r IH]; intros summary w; simpl.
  - by exists summary.
  - unfold bind, mean. destruct v as [|x v]; simpl; [done|]. apply IH.
Qed.

(** X8.  [save_epoch_summary] and [save_last_epoch_summary] never return
    and never write: for every store and index the call raises
    [IndexError] (index out of range), [ZeroDivisionError] (a key of the
    record without values) or else [AttributeError], and the state is as
    before. *)
Theorem save_epoch_summary_never_writes (epoch : Z) (w : World) :
  save_epoch_summary epoch w = (Raise (summary_error (info (self w)) epoch), w)
  /\ save_last_epoch_summary w = (Raise (summary_error (info (self w)) (-1)), w).
Proof.
  assert (forall i, save_epoch_summary i w = (Raise (summary_error (info (self w)) i), w))
    as H; [|split; apply H].
  intros i. unfold save_epoch_summary, summary_error. unfold_monad.
  destruct (list_index _ _) as [e|]; [|done].
  pose proof (summarize_outcome e [] w) as Hs.
  destruct (existsb _ e).
  - by rewrite Hs.
  - destruct Hs as [summary ->]. done.
Qed.

(** X9.  [print_epoch_summary] prints the header line and then: raises
    [IndexError] when the index is out of range; prints the blank line
    and returns when the record has no key; raises [NameError] when it
    has one.  A line with a mean is never printed, and nothing but
    standard output changes. *)
Theorem print_epoch_summary_outcomes (format_3f : float -> string) (epoch : Z) (w : World) :
  print_epoch_summary format_3f epoch w
  = match list_index (info (self w)) epoch with
    | None =>
        (Raise IndexError, with_stdout (fun o => o ++ [summary_header epoch]) w)
    | Some [] =>
        (Return tt, with_stdout (fun o => o ++ [summary_header epoch; EmptyString]) w)
    | Some (_ :: _) =>
        (Raise NameError, with_stdout (fun o => o ++ [summary_header epoch]) w)
    end.
Proof.
  unfold print_epoch_summary, print. unfold_monad. simpl.
  destruct (list_index _ _) as [[|[k v] r]|]; try done.
  simpl. unfold with_stdout. simpl. by rewrite <- app_assoc.
Qed.

(** ** [plot] *)

Lemma write_all_other {A} (path : A -> string) (content : A -> file) (l : list A) :
  forall (fs : gmap string file) (p : string),
    p ∉ map path l -> write_all path content l fs !! p = fs !! p.
Proof.
  unfold write_all. induction l as [|a l IH]; intros fs p Hp; simpl in *; [done|].
  apply not_elem_of_cons in Hp as [Hne Hp].
  rewrite IH by done. by apply lookup_insert_ne.
Qed.

Lemma write_all_key {A} (path : A -> string) (content : A -> file) (l : list A) :
  forall (fs : gmap string file) (a : A),
    NoDup (map path l) -> a ∈ l ->
    write_all path content l fs !! path a = Some (content a).
Proof.
  induction l as [|a0 l IH]; intros fs a Hnd Ha; [inversion Ha|].
  simpl in Hnd. apply NoDup_cons in Hnd as [Hp0 Hnd].
  apply elem_of_cons in Ha as [->|Ha].
  - change (write_all path content (a0 :: l) fs)
      with (write_all path content l (<[path a0 := content a0]> fs)).
    rewrite write_all_other by done. apply lookup_insert_eq.
  - by apply IH.
Qed.

Lemma extend_items_get (items : epoch_info) :
  forall acc w,
    NoDup (dict_keys items) ->
    (forall k, k ∈ dict_keys items -> k ∈ dict_keys acc) ->
    exists acc',
      extend_items items acc w = (Return acc', w)
      /\ dict_keys acc' = dict_keys acc
      /\ forall k old, dict_get k acc = Some old ->
           dict_get k acc' = Some (old ++ default [] (dict_get k items)).
Proof.
  induction items as [|[k0 v0] r IH]; intros acc w Hnd Hin; simpl.
  - exists acc. repeat split; try done. intros k old ->. by rewrite app_nil_r.
  - simpl in Hnd. apply NoDup_cons in Hnd as [Hk0 Hnd]. unfold_monad.
    destruct (proj2 (dict_get_is_Some k0 acc) (Hin k0 ltac:(left))) as [old0 Hold0].
    rewrite Hold0. simpl.
    destruct (IH (dict_set k0 (old0 ++ v0) acc) w) as (acc' & Hrun & Hkeys & Hget);
      [done| |].
    { intros k' Hk'. rewrite dict_keys_set_present by (apply Hin; left).
      apply Hin. by right. }
    exists acc'. split; [done|]. split.
    { rewrite Hkeys. apply dict_keys_set_present, Hin. left. }
    intros k old Hold. destruct (String.eqb_spec k0 k) as [->|Hne].
    + rewrite (Hget k (old0 ++ v0)) by apply dict_get_set_eq.
      assert (dict_get k r = None) as ->.
      { apply eq_None_not_Some. by rewrite dict_get_is_Some. }
      simpl. rewrite app_nil_r. congruence.
    + apply Hget. by rewrite dict_get_set_ne.
Qed.

Lemma gather_get (epochs : list epoch_info) :
  forall acc w,
    NoDup (dict_keys acc) ->
    Forall (fun e : epoch_info => dict_keys e = dict_keys acc) epochs ->
    exists acc',
      gather epochs acc w = (Return acc', w)
      /\ dict_keys acc' = dict_keys acc
      /\ forall k old, dict_get k acc = Some old ->
           dict_get k acc' = Some (old ++ series_of k epochs).
Proof.
  induction epochs as [|e r IH]; intros acc w Hnd Hall; simpl.
  - exists acc. repeat split; try done. intros k old ->. by rewrite app_nil_r.
  - apply Forall_cons in Hall as [He Hr]. unfold bind.
    destruct (extend_items_get e acc w) as (acc1 & -> & Hk1 & Hg1);
      [by rewrite He|by rewrite He|].
    destruct (IH acc1 w) as (acc' & Hrun & Hk' & Hg'); [by rewrite Hk1|by rewrite Hk1|].
    exists acc'. split; [done|]. split; [congruence|].
    intros k old Hold. rewrite (Hg' k _ (Hg1 k old Hold)).
    unfold series_of. simpl. by rewrite app_assoc.
Qed.

Lemma render_all (series : dict (list float)) :
  forall w,
    charts_drawable w ->
    (forall k, k ∈ dict_keys series -> k ∈ keys_of w) ->
    for_each series render w
    = (Return tt,
       with_files (fun _ => write_all (fun kv => chart_path (log_dir_path (self w)) (fst kv))
                                      (chart_of (meta_info_dict (self w))) series (files w))
                  w).
Proof.
  induction series as [|[k v] r IH]; intros w Hdr Hin.
  - unfold ret, with_files. by destruct w.
  - destruct (proj2 (dict_get_is_Some k (meta_info_dict (self w))) (Hin k ltac:(left)))
      as [m Hm].
    cbn [for_each]. unfold bind.
    rewrite (render_drawable k v m w Hm) by (by eapply charts_drawable_get).
    rewrite IH.
    + unfold write_all, chart_of. simpl. by rewrite Hm.
    + done.
    + intros k' Hk'. apply Hin. by right.
Qed.

(** X10.  With declared keys that are distinct plain file names, records
    that have exactly the declared keys and charts that are drawable (a
    scale [matplotlib] takes, a title without dollar sign), [plot] returns,
    and the chart of every declared key is titled with the key, has the
    key's [yscale] (['log'] when none is configured) and draws the key's
    values of all epochs, concatenated in epoch order; files that are no
    chart of a declared key are as before. *)
Theorem plot_draws_all_epochs (w : World) (k : string) (m : meta_info) :
  keys_distinct w -> keys_plain w -> keys_exact w -> charts_drawable w ->
  dict_get k (meta_info_dict (self w)) = Some m ->
  exists w',
    plot w = (Return tt, w')
    /\ files w' !! chart_path (log_dir_path (self w)) k
       = Some (Chart k (default "log" (yscale m)) (series_of k (info (self w))))
    /\ (forall p, p ∉ map (chart_path (log_dir_path (self w))) (keys_of w) ->
          files w' !! p = files w !! p).
Proof.
  intros Hnd Hpl Hex Hdr Hm. unfold plot, bind, modify, gets.
  pose proof (plain_keys_chart_paths w Hnd Hpl) as Hcd.
  set (w0 := with_plot_call w).
  destruct (gather_get (info (self w0)) (dict_fromkeys (keys_of w) []) w0)
    as (series & Hrun & Hkeys & Hget).
  { by rewrite dict_keys_fromkeys. }
  { by rewrite dict_keys_fromkeys. }
  change (dict_keys (meta_info_dict (self w0))) with (keys_of w). rewrite Hrun.
  rewrite dict_keys_fromkeys in Hkeys by done.
  assert (series = map (fun k => (k, series_of k (info (self w)))) (keys_of w)) as ->.
  { apply dict_ext.
    - by rewrite dict_keys_map.
    - by rewrite Hkeys.
    - intros k' Hk'. rewrite Hkeys in Hk'.
      rewrite (Hget k' []).
      + simpl. symmetry. clear -Hk'. induction (keys_of w) as [|k0 l IH]; [inversion Hk'|].
        simpl. destruct (String.eqb_spec k0 k') as [->|Hne]; [done|].
        apply IH. apply elem_of_cons in Hk'. destruct Hk'; congruence.
      + rewrite dict_fromkeys_distinct by done. clear -Hk'.
        induction (keys_of w) as [|k0 l IH]; [inversion Hk'|].
        simpl. destruct (String.eqb_spec k0 k') as [->|Hne]; [done|].
        apply IH. apply elem_of_cons in Hk'. destruct Hk'; congruence. }
  rewrite render_all by (done || intros k'; by rewrite dict_keys_map).
  eexists. split; [done|]. simpl.
  assert (k ∈ keys_of w) as Hk.
  { apply dict_get_is_Some. eauto. }
  split.
  - rewrite (write_all_key (fun kv => chart_path (log_dir_path (self w)) (fst kv))
               (chart_of (meta_info_dict (self w))) _ _
               (k, series_of k (info (self w)))).
    + unfold chart_of. simpl. by rewrite Hm.
    + by rewrite map_map.
    + by apply (list_elem_of_fmap_2 (fun k => (k, series_of k (info (self w))))).
  - intros p Hp. apply write_all_other. by rewrite map_map.
Qed.

Lemma plot_draws_all_epochs_witness :
  exists w',
    plot example_recorded_world = (Return tt, w')
    /\ files w' !! chart_path "logs" "acc"
       = Some (Chart "acc" (default "log" (yscale (MetaInfo None (Some "linear"))))
                     (series_of "acc" (info (self example_recorded_world))))
    /\ (forall p, p ∉ map (chart_path "logs") (keys_of example_recorded_world) ->
          files w' !! p = files example_recorded_world !! p).
Proof.
  apply (plot_draws_all_epochs example_recorded_world "acc" (MetaInfo None (Some "linear"))).
  - unfold keys_distinct. compute_done.
  - unfold keys_plain. by repeat constructor.
  - unfold keys_exact. by repeat constructor.
  - unfold charts_drawable. by repeat constructor.
  - reflexivity.
Defined.








(** A scale that is no scale name: the chart of ["loss"] is written, the
    chart of ["acc"] is not, and [plot] raises. *)
Example plot_unknown_scale :
  plot example_unknown_scale_world
  = (Raise ValueError,
     MkWorld (self example_unknown_scale_world)
             (<["logs/loss.pdf" := Chart "loss" "log" [0.5%float; 0.25%float]]> ∅) [] 1).
Proof. vm_compute. reflexivity. Qed.

Example plot_undeclared_key :
  plot (MkWorld (example_logger [ [("loss", [0.5%float]); ("lr", [0.125%float])] ]) ∅ [] 0)
  = (Raise KeyError,
     with_plot_call
       (MkWorld (example_logger [ [("loss", [0.5%float]); ("lr", [0.125%float])] ]) ∅ [] 0)).
Proof. vm_compute. reflexivity. Qed.

Lemma render_leaves_data (w0 : World) (kv : string * list float) (w : World) :
  (self w = self w0 /\ stdout w = stdout w0 /\ plot_calls w = S (plot_calls w0)
   /\ forall p, (forall k, p <> chart_path (log_dir_path (self w0)) k) ->
        files w !! p = files w0 !! p) ->
  let w' := snd (render kv w) in
  self w' = self w0 /\ stdout w' = stdout w0 /\ plot_calls w' = S (plot_calls w0)
  /\ forall p, (forall k, p <> chart_path (log_dir_path (self w0)) k) ->
       files w' !! p = files w0 !! p.
Proof.
  intros (Hself & Hout & Hcalls & Hfiles).
  destruct (render_state kv w) as [-> | (scale & ->)]; [done|].
  repeat split; try done. intros p Hp. simpl. rewrite Hself.
  rewrite lookup_insert_ne by (intros ?; by eapply Hp). by apply Hfiles.
Qed.

(** X12.  Whatever the store and the outcome, [plot] changes only chart
    files: the logger, standard output and every file whose path is not
    the chart path of some key are as before, and the call is counted
    once. *)
Theorem plot_changes_charts_only (w : World) :
  let w' := snd (plot w) in
  self w' = self w /\ stdout w' = stdout w /\ plot_calls w' = S (plot_calls w)
  /\ forall p, (forall k, p <> chart_path (log_dir_path (self w)) k) ->
       files w' !! p = files w !! p.
Proof.
  set (P := fun w' : World =>
    self w' = self w /\ stdout w' = stdout w /\ plot_calls w' = S (plot_calls w)
    /\ forall p, (forall k, p <> chart_path (log_dir_path (self w)) k) ->
         files w' !! p = files w !! p).
  change (P (snd (plot w))).
  assert (P (with_plot_call w)) as HP by (by repeat split).
  unfold plot, bind, modify, gets.
  pose proof (gather_state (info (self (with_plot_call w)))
                (dict_fromkeys (dict_keys (meta_info_dict (self (with_plot_call w)))) [])
                (with_plot_call w)) as Hg.
  destruct (gather _ _ _) as [[series| |] w1]; simpl in Hg; subst w1; [|done|done].
  apply (for_each_invariant P); [|done].
  intros kv w' _. apply render_leaves_data.
Qed.

(** ** Construction on directories that are not well formed *)

Lemma load_key_unparsable (epoch : Z) (k : string) (w : World) :
  files w !! epoch_path (log_dir_path (self w)) k epoch = Some Unparsable ->
  load_key epoch k w = (Raise JSONDecodeError, w).
Proof.
  intros Hfile. unfold load_key. unfold_monad. simpl. by rewrite Hfile.
Qed.

Lemma load_keys_unparsable (epoch : Z) (pre post : list string) (k : string)
    (w : World) init e :
  info (self w) = init ++ [e] ->
  (forall k', k' ∈ pre -> readable (files w) (log_dir_path (self w)) epoch k') ->
  files w !! epoch_path (log_dir_path (self w)) k epoch = Some Unparsable ->
  for_each (pre ++ k :: post) (load_key epoch) w
  = (Raise JSONDecodeError,
     with_info (fun _ => init ++ [loaded (files w) (log_dir_path (self w)) epoch pre e]) w).
Proof.
  intros Hinfo Hread Hbad. rewrite for_each_app. unfold bind at 1.
  rewrite (load_keys_readable epoch pre w init e) by done.
  simpl. unfold bind. by rewrite load_key_unparsable.
Qed.

(** The loop of [load] over [m] epochs that are on disk. *)
Lemma load_loop_prefix (fs : gmap string file) (dir : string) (ks : list string) (m : nat) :
  forall (fuel : nat) (n : Z) (w : World),
    NoDup ks ->
    keys_of w = ks -> files w = fs -> log_dir_path (self w) = dir ->
    is_loading (self w) = true ->
    (forall j, (j < m)%nat -> epoch_complete fs dir ks (n + Z.of_nat j) = true) ->
    (forall j, (j < m)%nat -> epoch_parsable fs dir ks (n + Z.of_nat j) = true) ->
    load_loop (m + fuel) n w
    = load_loop fuel (n + Z.of_nat m)
        (with_info (fun l => l ++ map (fun j => epoch_record fs dir ks (n + Z.of_nat j))
                                     (seq 0 m)) w).
Proof.
  induction m as [|m IH]; intros fuel n w Hnd Hks Hfs Hdir Hload Hcomp Hpars.
  - simpl. rewrite Z.add_0_r. f_equal. unfold with_info. rewrite app_nil_r.
    by destruct w as [[]].
  - change (S m + fuel)%nat with (S (m + fuel)).
    cbn [load_loop]. rewrite new_epoch_loading by done.
    set (w1 := with_info _ w).
    pose proof (Hcomp 0%nat ltac:(lia)) as Hc0. pose proof (Hpars 0%nat ltac:(lia)) as Hp0.
    rewrite Z.add_0_r in Hc0, Hp0.
    unfold load_epoch, bind at 1, gets.
    rewrite (load_keys_readable n (keys_of w1) w1 (info (self w)) (dict_fromkeys (keys_of w) [])).
    + set (w2 := with_info _ w1).
      rewrite (IH fuel (n + 1) w2); try done.
      * assert ((info (self w) ++ [loaded fs dir n ks (dict_fromkeys ks [])])
                ++ map (fun j => epoch_record fs dir ks (n + 1 + Z.of_nat j)) (seq 0 m)
                = info (self w)
                  ++ map (fun j => epoch_record fs dir ks (n + Z.of_nat j)) (seq 0 (S m)))
          as Hlist.
        { rewrite <- app_assoc. f_equal. rewrite map_seq_S. simpl. f_equal.
          - rewrite <- (dict_keys_fromkeys ks (@nil float)) at 1 by done.
            rewrite loaded_all by (by rewrite dict_keys_fromkeys).
            rewrite dict_keys_fromkeys by done. unfold epoch_record.
            by rewrite Z.add_0_r.
          - apply map_ext. intros j. f_equal. lia. }
        replace (n + 1 + Z.of_nat m) with (n + Z.of_nat (S m)) by lia.
        f_equal. subst w2 w1. unfold with_info, keys_of in *. simpl.
        rewrite Hks, Hfs, Hdir, Hlist. done.
      * intros j Hj. rewrite <- (Hcomp (S j)) by lia. f_equal. lia.
      * intros j Hj. rewrite <- (Hpars (S j)) by lia. f_equal. lia.
    + reflexivity.
    + subst w1. unfold keys_of in *. simpl. rewrite Hks, Hfs, Hdir.
      apply readable_prefix; [exact Hc0|exact Hp0].
Qed.

(** X14.  Only [FileNotFoundError] ends the resume loop.  When epochs
    [0 .. k-1] are on disk and the first file of epoch [k] that cannot be
    read is one that [json.load] rejects (such as the empty file a failed
    [save_epoch] leaves), construction raises [JSONDecodeError]; the
    logger is left with [is_loading] set and with the record it had begun
    for epoch [k], and the directory is as before. *)
Theorem construction_raises_on_unparsable_file (k extra : nat) (meta : dict meta_info)
    (dir : string) (plotting : bool) (p : Z) (fs : gmap string file)
    (pre post : list string) (key : string) :
  NoDup (dict_keys meta) ->
  forallb (fun j => epoch_complete fs dir (dict_keys meta) (Z.of_nat j)) (seq 0 k) = true ->
  forallb (fun j => epoch_parsable fs dir (dict_keys meta) (Z.of_nat j)) (seq 0 k) = true ->
  dict_keys meta = pre ++ key :: post ->
  forallb (present fs dir (Z.of_nat k)) pre = true ->
  forallb (parsable fs dir (Z.of_nat k)) pre = true ->
  fs !! epoch_path dir key (Z.of_nat k) = Some Unparsable ->
  exists w',
    __init__ (S k + extra) meta dir plotting p fs = Some (Raise JSONDecodeError, w')
    /\ is_loading (self w') = true
    /\ length (info (self w')) = S k
    /\ files w' = fs.
Proof.
  intros Hnd Hcomp Hpars Hkeys Hpre Hppre Hbad. unfold __init__, load.
  set (w0 := with_is_loading true _).
  replace (S k + extra)%nat with (k + S extra)%nat by lia.
  rewrite (load_loop_prefix fs dir (dict_keys meta) k (S extra) 0 w0); try done.
  2:{ intros j Hj. rewrite forallb_forall in Hcomp. apply Hcomp, in_seq. lia. }
  2:{ intros j Hj. rewrite forallb_forall in Hpars. apply Hpars, in_seq. lia. }
  set (w1 := with_info _ w0). cbn [load_loop].
  rewrite new_epoch_loading by done.
  set (w2 := with_info _ w1).
  unfold load_epoch, bind at 1, gets.
  change (keys_of w2) with (dict_keys meta). rewrite Hkeys.
  rewrite (load_keys_unparsable (0 + Z.of_nat k) pre post key w2 (info (self w1))
             (dict_fromkeys (keys_of w1) [])); try done.
  - eexists. split; [done|]. simpl. split; [done|]. split; [|done].
    rewrite !length_app, length_map, length_seq. simpl. lia.
  - by apply readable_prefix.
Qed.

Lemma construction_raises_on_unparsable_file_witness :
  exists w',
    __init__ (S 2 + 0) example_meta "logs" true 2
      (<["logs/loss_02.json" := Unparsable]> example_files)
    = Some (Raise JSONDecodeError, w')
    /\ is_loading (self w') = true
    /\ length (info (self w')) = 3%nat
    /\ files w' = <["logs/loss_02.json" := Unparsable]> example_files.
Proof.
  apply (construction_raises_on_unparsable_file 2 0 example_meta "logs" true 2
           (<["logs/loss_02.json" := Unparsable]> example_files) [] ["acc"] "loss");
    [compute_done | reflexivity..].
Defined.

(** A [save_epoch] call with an index one past the end, then a new
    construction on the directory it leaves. *)
Example failed_save_then_construction :
  let w := MkWorld (example_logger [example_record; example_record]) example_files [] 0 in
  fst (save_epoch (fun x => x) 2 w) = Raise IndexError
  /\ option_map fst (__init__ 3 example_meta "logs" true 2
                             (files (snd (save_epoch (fun x => x) 2 w))))
     = Some (Raise JSONDecodeError).
Proof. vm_compute. split; reflexivity. Qed.

(** ** File names are unambiguous *)

Lemma chars_app (s t : string) : chars (s +:+ t) = chars s ++ chars t.
Proof. induction s as [|c s IH]; simpl; [done|by rewrite IH]. Qed.

Lemma chars_inj (s t : string) : chars s = chars t -> s = t.
Proof.
  revert t. induction s as [|c s IH]; intros [|c' t] H; simpl in H; try done.
  injection H as -> H. f_equal. by apply IH.
Qed.

Lemma underscore_not_in_digits (u : uint) : "_"%char ∉ chars (NilEmpty.string_of_uint u).
Proof.
  induction u; simpl; [inversion 1|..];
    (apply not_elem_of_cons; split; [discriminate|done]).
Qed.

Lemma underscore_not_in_format_02d (epoch : Z) : "_"%char ∉ chars (format_02d epoch).
Proof.
  assert (forall u, "_"%char ∉ chars (NilZero.string_of_uint u)) as Hu.
  { intros u. destruct u; try apply underscore_not_in_digits.
    simpl. apply not_elem_of_cons. split; [discriminate|inversion 1]. }
  unfold format_02d.
  assert ("_"%char ∉ chars (NilZero.string_of_int (Z.to_int epoch))) as Hs.
  { destruct (Z.to_int epoch); simpl; [apply Hu|].
    apply not_elem_of_cons. split; [discriminate|apply Hu]. }
  destruct (_ <? _)%nat; [|done].
  rewrite chars_app. simpl. apply not_elem_of_cons. split; [discriminate|done].
Qed.

Lemma epoch_name_inj (k1 k2 : string) (e1 e2 : Z) :
  0 <= e1 -> 0 <= e2 ->
  k1 +:+ "_" +:+ format_02d e1 +:+ ".json" = k2 +:+ "_" +:+ format_02d e2 +:+ ".json" ->
  k1 = k2 /\ e1 = e2.
Proof.
  intros H1 H2 Heq. apply (f_equal chars) in Heq.
  rewrite !chars_app in Heq. simpl in Heq.
  apply not_elem_of_app_cons_inv_r in Heq as (Hk & _ & Hf).
  - split; [by apply chars_inj|].
    apply app_inv_tail in Hf. by apply format_02d_inj, chars_inj.
  - apply not_elem_of_app. split; [apply underscore_not_in_format_02d|].
    repeat (apply not_elem_of_cons; split; [discriminate|]). inversion 1.
  - apply not_elem_of_app. split; [apply underscore_not_in_format_02d|].
    repeat (apply not_elem_of_cons; split; [discriminate|]). inversion 1.
Qed.

Lemma epoch_path_inj (dir k1 k2 : string) (e1 e2 : Z) :
  startswith_sep k1 = false -> startswith_sep k2 = false ->
  0 <= e1 -> 0 <= e2 ->
  epoch_path dir k1 e1 = epoch_path dir k2 e2 -> k1 = k2 /\ e1 = e2.
Proof.
  intros Hk1 Hk2 H1 H2. unfold epoch_path, os_path_join.
  rewrite (startswith_sep_app k1), (startswith_sep_app k2) by done.
  destruct (_ || _)%bool; intros H.
  - apply String.app_inj in H. by apply epoch_name_inj.
  - do 2 apply String.app_inj in H. by apply epoch_name_inj.
Qed.

(** X15.  The file name [<key>_<epoch:02d>.json] determines key and
    epoch: for keys that do not begin with ['/'] and epoch numbers from 0
    on, two (key, epoch) pairs with the same path are the same pair, also
    beyond epoch 99 and for keys that contain underscores or digits. *)
Theorem epoch_file_names_unambiguous (dir k1 k2 : string) (e1 e2 : Z) :
  startswith_sep k1 = false -> startswith_sep k2 = false ->
  0 <= e1 -> 0 <= e2 ->
  epoch_path dir k1 e1 = epoch_path dir k2 e2 -> k1 = k2 /\ e1 = e2.
Proof. apply epoch_path_inj. Qed.

Lemma epoch_file_names_unambiguous_witness :
  "loss_1" = "loss_1" /\ 23 = 23.
Proof.
  apply (epoch_file_names_unambiguous "logs" "loss_1" "loss_1" 23 23);
    [reflexivity | reflexivity | lia | lia | reflexivity].
Defined.

Example epoch_paths_beyond_two_digits :
  epoch_path "logs" "loss" 123 = "logs/loss_123.json"
  /\ epoch_path "logs" "loss_1" 23 = "logs/loss_1_23.json".
Proof. split; reflexivity. Qed.

(** ** Saving every epoch, then constructing again *)

Lemma list_index_nat {A} (l : list A) (j : nat) : list_index l (Z.of_nat j) = l !! j.
Proof.
  unfold list_index. rewrite (proj2 (Z.leb_le _ _)) by lia. by rewrite Nat2Z.id.
Qed.

(** [save_epoch] for each index of [js], in a store whose records have
    the declared keys. *)
Lemma save_epochs_effect (reread : float -> float) (js : list nat) :
  forall w : World,
    keys_distinct w -> keys_plain w -> keys_exact w ->
    NoDup js ->
    (forall j, j ∈ js -> (j < length (info (self w)))%nat) ->
    exists w',
      for_each (map Z.of_nat js) (save_epoch reread) w = (Return tt, w')
      /\ self w' = self w
      /\ (forall j k e v, j ∈ js -> k ∈ keys_of w ->
            info (self w) !! j = Some e -> dict_get k e = Some v ->
            files w' !! epoch_path (log_dir_path (self w)) k (Z.of_nat j)
            = Some (JsonFloats (map reread v)))
      /\ (forall p,
            (forall j k, j ∈ js -> k ∈ keys_of w ->
               p <> epoch_path (log_dir_path (self w)) k (Z.of_nat j)) ->
            files w' !! p = files w !! p).
Proof.
  induction js as [|j0 js IH]; intros w Hnd Hpl Hex Hjs Hrange.
  - exists w. repeat split; try done. intros j k e v Hj. inversion Hj.
  - apply NoDup_cons in Hjs as [Hj0 Hjs].
    destruct (lookup_lt_is_Some_2 (info (self w)) j0) as [e0 He0].
    { apply Hrange. left. }
    assert (dict_keys e0 = keys_of w) as Hke0.
    { unfold keys_exact in Hex. rewrite Forall_forall in Hex.
      apply Hex. by eapply list_elem_of_lookup_2. }
    destruct (save_epoch_effect reread (Z.of_nat j0) w e0)
      as (w1 & Hrun1 & Hself1 & _ & _ & Hkey1 & Hother1); try done.
    { by rewrite list_index_nat. }
    destruct (IH w1) as (w' & Hrun & Hself & Hkey & Hother).
    { unfold keys_distinct, keys_of. by rewrite Hself1. }
    { unfold keys_plain, keys_of. by rewrite Hself1. }
    { by apply (keys_exact_self w). }
    { done. }
    { intros j Hj. rewrite Hself1. apply Hrange. by right. }
    exists w'. simpl. unfold bind. rewrite Hrun1. split; [exact Hrun|].
    split; [congruence|].
    assert (keys_of w1 = keys_of w) as Hk1 by (unfold keys_of; by rewrite Hself1).
    rewrite Hself1, Hk1 in *. split.
    + intros j k e v [->|Hj]%elem_of_cons Hk He Hv.
      * rewrite Hother.
        -- apply Hkey1; [done|].
           assert (Some e0 = Some e) as [= ->] by (etrans; [symmetry; exact He0|exact He]).
           exact Hv.
        -- intros j k' Hj Hk' Heq.
           unfold keys_plain in Hpl. rewrite Forall_forall in Hpl.
           apply epoch_path_inj in Heq as [_ Heq]; try lia;
             try by apply plain_key_relative, Hpl.
           apply Nat2Z.inj in Heq. congruence.
      * by apply (Hkey j k e v).
    + intros p Hp. rewrite Hother.
      * apply Hother1. intros (k & -> & Hk)%list_elem_of_fmap.
        by apply (Hp j0 k ltac:(left) Hk).
      * intros j k Hj Hk. apply Hp; [by right|done].
Qed.

Lemma forallb_false_elem {A} (p : A -> bool) (l : list A) (x : A) :
  x ∈ l -> p x = false -> forallb p l = false.
Proof.
  intros Hx Hp. destruct (forallb p l) eqn:E; [|done].
  by rewrite (forallb_elem p l x E Hx) in Hp.
Qed.

(** X16.  Resume after saving.  In a store with at least one declared
    key, declared keys that are distinct plain file names, records that
    have exactly the declared keys and a directory without epoch files of
    these keys: saving every epoch returns, and a new construction on the
    directory it leaves returns with the records of the store in
    [self.info], in their order, each float as [json.load] reads it from
    the numeral [json.dump] wrote; where these are the floats themselves,
    [self.info] is that of the store. *)
Theorem resume_after_save_all (reread : float -> float) (w : World) (extra : nat) :
  keys_of w <> [] ->
  keys_distinct w -> keys_plain w -> keys_exact w ->
  no_epoch_files (files w) (log_dir_path (self w)) (keys_of w) ->
  exists w1,
    save_all reread w = (Return tt, w1)
    /\ self w1 = self w
    /\ exists w2,
         __init__ (S (length (info (self w))) + extra) (meta_info_dict (self w))
           (log_dir_path (self w)) (periodic_plot (self w)) (period (self w)) (files w1)
         = Some (Return tt, w2)
         /\ info (self w2) = map (reread_record reread) (info (self w))
         /\ (Forall (exact_on reread) (info (self w)) -> info (self w2) = info (self w)).
Proof.
  intros Hne Hnd Hpl Hex Hnone.
  remember (length (info (self w))) as n eqn:Hn.
  destruct (save_epochs_effect reread (seq 0 n) w) as (w1 & Hrun & Hself & Hkey & Hother);
    try done.
  { apply NoDup_seq. }
  { intros j Hj. apply elem_of_seq in Hj. lia. }
  exists w1. split; [unfold save_all, bind, gets; rewrite <- Hn; exact Hrun|].
  split; [done|].
  set (dir := log_dir_path (self w)). set (ks := keys_of w).
  assert (forall k j, k ∈ ks -> (n <= j)%nat ->
            files w1 !! epoch_path dir k (Z.of_nat j) = None) as Hbeyond.
  { intros k j Hk Hj. rewrite Hother; [by apply Hnone|].
    intros j' k' Hj' Hk' Heq. apply elem_of_seq in Hj'.
    unfold keys_plain in Hpl. rewrite Forall_forall in Hpl.
    apply epoch_path_inj in Heq as [_ Heq]; try lia;
      try by apply plain_key_relative, Hpl. }
  assert (forall j e, info (self w) !! j = Some e ->
            dict_keys e = ks /\
            forall k, k ∈ ks ->
              exists v, dict_get k e = Some v
                        /\ files w1 !! epoch_path dir k (Z.of_nat j)
                           = Some (JsonFloats (map reread v)))
    as Hsaved.
  { intros j e He.
    assert (dict_keys e = ks) as Hke.
    { unfold keys_exact in Hex. rewrite Forall_forall in Hex.
      apply Hex. by eapply list_elem_of_lookup_2. }
    split; [done|]. intros k Hk.
    destruct (proj2 (dict_get_is_Some k e)) as [v Hv]; [by rewrite Hke|].
    exists v. split; [done|]. apply (Hkey j k e v); try done.
    assert (j < n)%nat by (rewrite Hn; exact (lookup_lt_Some _ _ _ He)).
    apply elem_of_seq. lia. }
  assert (map (epoch_record (files w1) dir ks) (map Z.of_nat (seq 0 n))
          = map (reread_record reread) (info (self w))) as Hrecords.
  { apply list_eq. intros j.
    rewrite !list_lookup_fmap.
    destruct (decide (j < n)%nat) as [Hlt|Hge].
    + rewrite lookup_seq_lt by done. simpl.
      destruct (lookup_lt_is_Some_2 (info (self w)) j) as [e He]; [lia|].
      rewrite He. simpl. f_equal.
      destruct (Hsaved j e He) as [Hke Hfiles].
      apply dict_ext.
      * unfold epoch_record. by rewrite dict_keys_map, reread_record_keys.
      * unfold epoch_record. by rewrite dict_keys_map.
      * intros k Hk. unfold epoch_record in *. rewrite dict_keys_map in Hk.
        rewrite dict_get_map by done.
        destruct (Hfiles k Hk) as (v & Hv & Hf).
        unfold file_floats. by rewrite Hf, reread_record_get, Hv.
    + rewrite lookup_seq_ge by lia. simpl. symmetry.
      rewrite (proj2 (lookup_ge_None _ _)) by lia. done. }
  eexists. split; [|split].
  - apply (construction_with_first_gap n extra).
    + exact Hnd.
    + intros j Hj. destruct (lookup_lt_is_Some_2 (info (self w)) j) as [e He]; [lia|].
      destruct (Hsaved j e He) as [_ Hfiles].
      unfold epoch_complete. apply forallb_forall. intros k Hk%list_elem_of_In.
      destruct (Hfiles k Hk) as (v & _ & Hv). unfold present.
      fold dir. by rewrite Hv.
    + intros j Hj. unfold epoch_parsable. apply forallb_forall.
      intros k Hk%list_elem_of_In. unfold parsable. fold dir.
      destruct (decide (j < n)%nat) as [Hlt|Hge].
      * destruct (lookup_lt_is_Some_2 (info (self w)) j) as [e He]; [lia|].
        destruct (Hsaved j e He) as [_ Hfiles].
        destruct (Hfiles k Hk) as (v & _ & Hv). by rewrite Hv.
      * rewrite Hbeyond; [done|done|lia].
    + assert (exists k0, k0 ∈ ks) as [k0 Hk0].
      { subst ks. destruct (keys_of w); [done|]. eexists. left. }
      apply (forallb_false_elem _ _ k0); [exact Hk0|].
      unfold present. fold dir. rewrite Hbeyond; [done|done|lia].
  - simpl. fold ks dir. exact Hrecords.
  - cbn [self info]. change (dict_keys (meta_info_dict (self w))) with ks.
    rewrite Hrecords. intros Hexact.
    clear -Hexact. induction Hexact as [|e l He _ IH]; simpl; [done|].
    by rewrite reread_record_exact, IH.
Qed.

Lemma resume_after_save_all_witness :
  exists w1,
    save_all (fun x => x) example_recorded_world = (Return tt, w1)
    /\ self w1 = self example_recorded_world
    /\ exists w2,
         __init__ (S (length (info (self example_recorded_world))) + 0)
           (meta_info_dict (self example_recorded_world))
           (log_dir_path (self example_recorded_world))
           (periodic_plot (self example_recorded_world))
           (period (self example_recorded_world)) (files w1)
         = Some (Return tt, w2)
         /\ info (self w2)
            = map (reread_record (fun x => x)) (info (self example_recorded_world))
         /\ (Forall (exact_on (fun x => x)) (info (self example_recorded_world)) ->
             info (self w2) = info (self example_recorded_world)).
Proof.
  apply (resume_after_save_all (fun x => x) example_recorded_world 0).
  - discriminate.
  - unfold keys_distinct. compute_done.
  - unfold keys_plain. by repeat constructor.
  - unfold keys_exact. by repeat constructor.
  - intros k epoch _. apply lookup_empty.
Defined.

(** ** [load] and [load_epoch] called again *)

Lemma dict_set_same {V} (k : string) (v : V) (d : dict V) :
  dict_get k d = Some v -> dict_set k v d = d.
Proof.
  induction d as [|[k' v'] r IH]; simpl; [done|].
  destruct (String.eqb_spec k' k) as [->|Hne].
  - by intros [= ->].
  - intros H. by rewrite IH.
Qed.

Lemma loaded_fixed fs dir epoch (ks : list string) (e : epoch_info) :
  (forall k, k ∈ ks -> dict_get k e = Some (file_floats fs dir epoch k)) ->
  loaded fs dir epoch ks e = e.
Proof.
  unfold loaded. induction ks as [|k ks IH]; intros Hget; simpl; [done|].
  rewrite dict_set_same by (apply Hget; left).
  apply IH. intros k' Hk'. apply Hget. by right.
Qed.

(** X17.  [load_epoch] is idempotent: in a store with an open epoch and a
    directory that has a list of floats for every declared key of the
    epoch, loading the epoch twice gives the outcome and the state of
    loading it once. *)
Theorem load_epoch_twice (epoch : Z) (w : World) init e :
  info (self w) = init ++ [e] ->
  epoch_complete (files w) (log_dir_path (self w)) (keys_of w) epoch = true ->
  epoch_parsable (files w) (log_dir_path (self w)) (keys_of w) epoch = true ->
  (load_epoch epoch ;;; load_epoch epoch) w = load_epoch epoch w
  /\ fst (load_epoch epoch w) = Return tt.
Proof.
  intros Hinfo Hcomp Hpars.
  assert (forall k, k ∈ keys_of w ->
            readable (files w) (log_dir_path (self w)) epoch k) as Hread.
  { by apply readable_prefix. }
  assert (load_epoch epoch w
          = (Return tt,
             with_info (fun _ => init ++ [loaded (files w) (log_dir_path (self w)) epoch
                                            (keys_of w) e]) w)) as Hrun.
  { unfold load_epoch, bind, gets. by apply load_keys_readable. }
  split; [|by rewrite Hrun].
  unfold bind at 1. rewrite Hrun.
  set (e1 := loaded _ _ _ _ e). set (w1 := with_info _ w).
  unfold load_epoch, bind, gets.
  rewrite (load_keys_readable epoch (keys_of w1) w1 init e1); [|done|exact Hread].
  assert (loaded (files w) (log_dir_path (self w)) epoch (keys_of w) e1 = e1) as Hfix.
  { apply loaded_fixed. intros k Hk. subst e1. by rewrite loaded_get, decide_True. }
  subst w1. unfold with_info, keys_of in *. simpl. by rewrite Hfix.
Qed.

Lemma load_epoch_twice_witness :
  (load_epoch 1 ;;; load_epoch 1) example_world = load_epoch 1 example_world
  /\ fst (load_epoch 1 example_world) = Return tt.
Proof.
  apply (load_epoch_twice 1 example_world [] [("loss", []); ("acc", [])]); reflexivity.
Defined.

(** X18.  [load] called on a store that already has records appends the
    persisted epochs to them: when epochs [0 .. k-1] are on disk as lists
    of floats and epoch [k] is not, the call returns with the old records
    followed by the [k] epochs of the directory, and with [is_loading]
    cleared; a second [load] therefore duplicates the epochs. *)
Theorem load_appends_persisted_epochs (k extra : nat) (w : World) :
  keys_distinct w ->
  forallb (fun j => epoch_complete (files w) (log_dir_path (self w)) (keys_of w)
                      (Z.of_nat j)) (seq 0 k) = true ->
  forallb (fun j => epoch_parsable (files w) (log_dir_path (self w)) (keys_of w)
                      (Z.of_nat j)) (seq 0 (S k)) = true ->
  epoch_complete (files w) (log_dir_path (self w)) (keys_of w) (Z.of_nat k) = false ->
  load (S k + extra) w
  = Some (Return tt,
          with_is_loading false
            (with_info
               (fun l => l ++ map (epoch_record (files w) (log_dir_path (self w)) (keys_of w))
                                  (map Z.of_nat (seq 0 k))) w)).
Proof.
  intros Hnd Hcomp Hpars Hlast. unfold load.
  rewrite (load_loop_resumes (files w) (log_dir_path (self w)) (keys_of w) k extra 0);
    try done.
  - unfold with_is_loading, with_info. simpl. by rewrite map_map.
  - intros j Hj. rewrite forallb_forall in Hcomp. apply Hcomp, in_seq. lia.
  - intros j Hj. rewrite forallb_forall in Hpars. apply Hpars, in_seq. lia.
Qed.

Lemma load_appends_persisted_epochs_witness :
  load (S 2 + 0) example_world
  = Some (Return tt,
          with_is_loading false
            (with_info
               (fun l => l ++ map (epoch_record (files example_world)
                                     (log_dir_path (self example_world))
                                     (keys_of example_world))
                                  (map Z.of_nat (seq 0 2))) example_world)).
Proof.
  apply (load_appends_persisted_epochs 2 0 example_world);
    [unfold keys_distinct; compute_done | reflexivity..].
Defined.

(** ** [new_epoch] and the plot counter *)

(** X19.  Whatever the store, [new_epoch] either returns with exactly one
    record appended, every declared key of it mapped to the empty
    sequence and the earlier records untouched, or raises (an exception
    of [plot]) with the logger as it was. *)
Theorem new_epoch_appends_or_raises (w : World) :
  (fst (new_epoch w) = Return tt
   /\ self (snd (new_epoch w))
      = self (with_info (fun l => l ++ [dict_fromkeys (keys_of w) []]) w))
  \/ (fst (new_epoch w) <> Return tt /\ self (snd (new_epoch w)) = self w).
Proof. apply new_epoch_outcome. Qed.

(** X20.  With plotting enabled and a positive period [P], a [log_info]
    call that returns leaves the plot counter in the range [0 .. P-1],
    whatever it was before. *)
Theorem plot_counter_in_range (itl : dict pyval) (w : World) :
  periodic_plot (self w) = true ->
  0 < period (self w) ->
  fst (log_info itl w) = Return tt ->
  0 <= plot_counter (self (snd (log_info itl w))) < period (self w).
Proof.
  intros Hpp HP.
  assert (forall r w', log_info itl w = (r, w') -> r = Return tt ->
            0 <= plot_counter (self w') < period (self w)) as H.
  { intros r w'. unfold log_info, bind at 1 2, gets.
    pose proof (log_keys_frame itl (keys_of w) w) as Hframe.
    destruct (for_each _ _ w) as [r1 w1]. simpl in Hframe.
    unfold frame_of in Hframe.
    injection Hframe as _ _ _ _ Hpp1 Hper Hc _ _ _ _.
    destruct r1 as [[]| |]; [|by intros [= <- <-]..].
    unfold bind at 1. rewrite Hpp1, Hpp, Hper, Hc.
    destruct (Z.eqb_spec (period (self w)) 0) as [H0|_]; [lia|].
    unfold bind, modify.
    set (w2 := with_plot_counter _ w1).
    pose proof (Z.mod_pos_bound (plot_counter (self w) + 1) (period (self w)) HP) as Hbound.
    destruct (_ =? 0).
    - destruct (plot_effect w2) as [(Hself & _) _].
      destruct (plot w2) as [r2 w3]. simpl in Hself. intros [= <- <-] _.
      by rewrite Hself.
    - by intros [= <- <-] _. }
  destruct (log_info itl w) as [r w'] eqn:E. simpl. by apply H.
Qed.

Lemma plot_counter_in_range_witness :
  0 <= plot_counter (self (snd (log_info example_values example_world)))
  < period (self example_world).
Proof.
  apply (plot_counter_in_range example_values example_world);
    [reflexivity | reflexivity | reflexivity].
Defined.
